(** * pushIn.js: scroll-driven scale and opacity of stacked layers

    A shallow embedding of the calculation core of pushIn.js, in its two
    generations found in the repository:

    - [PushIn]      : the class of [src/pushin.js], one object holding the
                      breakpoints, the scroll position and the layers;
    - [PushInLayer] : the TypeScript class [PushInLayer], one object per
                      layer, reading the scroll position from its scene.

    JavaScript numbers are modelled by exact rationals together with
    [NaN], [Infinity] and [-Infinity] (module [JS]).  Methods of the
    [PushIn] object that mutate [this] are written in a state monad over
    the object. *)

From Stdlib Require Import ZArith QArith Qminmax List String Ascii Bool Lia Lqa.
From ExtLib Require Import Structures.Monad Structures.MonadState.
From ExtLib Require Import Data.Monads.StateMonad.
Import ListNotations.
Import MonadNotation.
Local Open Scope monad_scope.

(* ===================================================================== *)
(** * JavaScript values used by the library *)
(* ===================================================================== *)

Module JS.

(** A JavaScript number: a finite value, [NaN] or one of the two
    infinities.  Finite values are exact rationals: the rounding of
    doubles and the sign of zero are not modelled (a division by zero
    takes the zero for +0; the quotients the library forms over a zero
    divisor have a zero numerator, see [clamp_zero_divisor] below). *)
Inductive number : Type :=
| Num (q : Q)
| NaN
| PosInf
| NegInf.

(** The result of an array read or of an optional field: [None] stands for
    [undefined] (and for [null], which the code treats alike). *)
Definition value : Type := option number.

Definition ofZ (z : Z) : number := Num (inject_Z z).

(** Equality of numbers up to the representation of the rational. *)
Definition numeq (a b : number) : Prop :=
  match a, b with
  | Num x, Num y => x == y
  | NaN, NaN => True
  | PosInf, PosInf => True
  | NegInf, NegInf => True
  | _, _ => False
  end.

(** ToNumber on the values above: [undefined] converts to [NaN]. *)
Definition toNumber (v : value) : number :=
  match v with
  | Some n => n
  | None => NaN
  end.

Definition isNaN (a : number) : bool :=
  match a with
  | NaN => true
  | _ => false
  end.

(** Relational operators: every comparison with [NaN] is false. *)
Definition le (a b : number) : bool :=
  match a, b with
  | NaN, _ => false
  | _, NaN => false
  | NegInf, _ => true
  | _, PosInf => true
  | Num x, Num y => Qle_bool x y
  | _, _ => false
  end.

Definition lt (a b : number) : bool :=
  match a, b with
  | NaN, _ => false
  | _, NaN => false
  | Num x, Num y => negb (Qle_bool y x)
  | NegInf, NegInf => false
  | NegInf, _ => true
  | PosInf, _ => false
  | Num _, PosInf => true
  | Num _, NegInf => false
  end.

Definition ge (a b : number) : bool := le b a.
Definition gt (a b : number) : bool := lt b a.

(** The infinity of the sign of [q] (of the opposite sign when [positive]
    is false), [NaN] for [q] zero: an infinity times [q]. *)
Definition infinityTimes (positive : bool) (q : Q) : number :=
  if Qeq_bool q 0 then NaN
  else if Bool.eqb positive (Qle_bool 0 q) then PosInf else NegInf.

(** Arithmetic: [NaN] is absorbing. *)
Definition add (a b : number) : number :=
  match a, b with
  | NaN, _ => NaN
  | _, NaN => NaN
  | Num x, Num y => Num (x + y)
  | PosInf, NegInf => NaN
  | NegInf, PosInf => NaN
  | PosInf, _ => PosInf
  | NegInf, _ => NegInf
  | Num _, PosInf => PosInf
  | Num _, NegInf => NegInf
  end.

Definition sub (a b : number) : number :=
  match a, b with
  | NaN, _ => NaN
  | _, NaN => NaN
  | Num x, Num y => Num (x - y)
  | PosInf, PosInf => NaN
  | NegInf, NegInf => NaN
  | PosInf, _ => PosInf
  | NegInf, _ => NegInf
  | Num _, PosInf => NegInf
  | Num _, NegInf => PosInf
  end.

Definition mul (a b : number) : number :=
  match a, b with
  | NaN, _ => NaN
  | _, NaN => NaN
  | Num x, Num y => Num (x * y)
  | PosInf, PosInf => PosInf
  | NegInf, NegInf => PosInf
  | PosInf, NegInf => NegInf
  | NegInf, PosInf => NegInf
  | PosInf, Num y => infinityTimes true y
  | NegInf, Num y => infinityTimes false y
  | Num x, PosInf => infinityTimes true x
  | Num x, NegInf => infinityTimes false x
  end.

(** Division.  A finite number over an infinity is 0, an infinity over an
    infinity is [NaN]; [0 / 0] is [NaN] and any other number over 0 is the
    infinity of its sign. *)
Definition div (a b : number) : number :=
  match a, b with
  | NaN, _ => NaN
  | _, NaN => NaN
  | Num x, Num y =>
      if Qeq_bool y 0 then infinityTimes true x else Num (x / y)
  | Num _, _ => Num 0
  | PosInf, Num y => if Qle_bool 0 y then PosInf else NegInf
  | NegInf, Num y => if Qle_bool 0 y then NegInf else PosInf
  | _, _ => NaN
  end.

(** [Math.min] and [Math.max] on two arguments. *)
Definition min (a b : number) : number :=
  match a, b with
  | NaN, _ => NaN
  | _, NaN => NaN
  | Num x, Num y => Num (Qmin x y)
  | NegInf, _ => NegInf
  | _, NegInf => NegInf
  | PosInf, _ => b
  | Num _, PosInf => a
  end.

Definition max (a b : number) : number :=
  match a, b with
  | NaN, _ => NaN
  | _, NaN => NaN
  | Num x, Num y => Num (Qmax x y)
  | PosInf, _ => PosInf
  | _, PosInf => PosInf
  | NegInf, _ => b
  | Num _, NegInf => a
  end.

(** ToBoolean: [undefined], [null], [0] and [NaN] are falsy. *)
Definition truthy (v : value) : bool :=
  match v with
  | Some (Num q) => negb (Qeq_bool q 0)
  | Some NaN => false
  | Some _ => true
  | None => false
  end.

(** The operator [a || b]. *)
Definition or (a b : value) : value := if truthy a then a else b.

(** Array read [a[i]]: [undefined] outside the array. *)
Definition item {A : Type} (a : list A) (i : Z) : option A :=
  if (i <? 0)%Z then None else nth_error a (Z.to_nat i).

(** [Array.prototype.findIndex]: position of the first element satisfying
    the predicate, [-1] when there is none. *)
Fixpoint findIndex {A : Type} (p : A -> bool) (a : list A) : Z :=
  match a with
  | [] => (-1)%Z
  | x :: r =>
      if p x then 0%Z
      else let k := findIndex p r in
           if (k =? -1)%Z then (-1)%Z else (k + 1)%Z
  end.

(** ** Strings and [parseInt(s, 10)]

    A string is held in its UTF-8 encoding, one [ascii] per byte. *)

(** The white space [parseInt] and [trim] skip (StrWhiteSpaceChar), by the
    length of its encoding: TAB, LF, VT, FF, CR and SP; U+00A0; U+1680,
    U+2000 to U+200A, U+2028, U+2029, U+202F, U+205F, U+3000 and
    U+FEFF. *)
Definition isWhiteSpace (c : ascii) : bool :=
  let n := nat_of_ascii c in
  ((9 <=? n) && (n <=? 13) || (n =? 32))%nat.

Definition isWhiteSpace2 (c1 c2 : ascii) : bool :=
  ((nat_of_ascii c1 =? 194) && (nat_of_ascii c2 =? 160))%nat.

Definition isWhiteSpace3 (c1 c2 c3 : ascii) : bool :=
  let n1 := nat_of_ascii c1 in
  let n2 := nat_of_ascii c2 in
  let n3 := nat_of_ascii c3 in
  ((n1 =? 225) && (n2 =? 154) && (n3 =? 128)
   || (n1 =? 226) && (n2 =? 128)
      && ((128 <=? n3) && (n3 <=? 138)
          || (n3 =? 168) || (n3 =? 169) || (n3 =? 175))
   || (n1 =? 226) && (n2 =? 129) && (n3 =? 159)
   || (n1 =? 227) && (n2 =? 128) && (n3 =? 128)
   || (n1 =? 239) && (n2 =? 187) && (n3 =? 191))%nat.

Fixpoint skipWhiteSpace (s : string) : string :=
  match s with
  | String c1 r1 =>
      if isWhiteSpace c1 then skipWhiteSpace r1
      else
        match r1 with
        | String c2 r2 =>
            if isWhiteSpace2 c1 c2 then skipWhiteSpace r2
            else
              match r2 with
              | String c3 r3 =>
                  if isWhiteSpace3 c1 c2 c3 then skipWhiteSpace r3 else s
              | EmptyString => s
              end
        | EmptyString => s
        end
  | EmptyString => s
  end.

Definition digitValue (c : ascii) : option Z :=
  let n := nat_of_ascii c in
  if ((48 <=? n) && (n <=? 57))%nat then Some (Z.of_nat (n - 48)) else None.

(** Value of the longest prefix of decimal digits; [None] when the string
    does not start with a digit. *)
Fixpoint digits (s : string) (acc : option Z) : option Z :=
  match s with
  | String c r =>
      match digitValue c with
      | Some d =>
          digits r (Some (10 * match acc with Some a => a | None => 0 end + d)%Z)
      | None => acc
      end
  | EmptyString => acc
  end.

(** The least integer that rounds to [Infinity] as a double: half way
    between the largest double, [2^1024 - 2^971], and [2^1024]. *)
Definition overflow : Z := (2 ^ 1024 - 2 ^ 970)%Z.

(** The number value of an integer: an infinity from [overflow] on (the
    rounding of the smaller integers to their nearest double is not
    modelled). *)
Definition ofInteger (z : Z) : number :=
  if (overflow <=? z)%Z then PosInf
  else if (z <=? - overflow)%Z then NegInf
  else ofZ z.

Definition parseInt (s : string) : number :=
  let s1 := skipWhiteSpace s in
  let '(sign, s2) :=
    match s1 with
    | String "-"%char r => ((-1)%Z, r)
    | String "+"%char r => (1%Z, r)
    | _ => (1%Z, s1)
    end in
  match digits s2 None with
  | Some n => ofInteger (sign * n)
  | None => NaN
  end.

(** A string in a condition: only the empty string is falsy. *)
Definition truthyString (v : option string) : bool :=
  match v with
  | Some EmptyString => false
  | Some (String _ _) => true
  | None => false
  end.

End JS.

Import JS.

(* ===================================================================== *)
(** * [src/pushin.js]: the class [PushIn] *)
(* ===================================================================== *)

Module PushIn.

(** The part of a layer's DOM element the calculations touch: the
    [data-pushin-speed] attribute ([None] when [dataset] does not own
    [pushinSpeed]) and the two style properties the effect writes
    ([None] until written; [transform] holds the [v] of [scale(v)]). *)
Record Element : Type := mkElement {
  pushinSpeed : option string;
  opacity : option number;
  transform : option number
}.

Record Ref : Type := mkRef {
  inpoints : list number;
  outpoints : list number
}.

Record Params : Type := mkParams {
  inpoint : value;
  outpoint : value;
  speed : number
}.

Record Layer : Type := mkLayer {
  elem : Element;
  index : Z;
  originalScale : number;
  ref : Ref;
  params : Params
}.

(** The object itself, with [window.innerWidth] as the one ambient value
    its calculations read. *)
Record PushIn : Type := mkPushIn {
  layers : list Layer;
  breakpoints : list number;
  scrollPos : number;
  speedDelta : number;
  transitionLength : number;
  layerDepth : number;
  innerWidth : number
}.

Definition set_breakpoints (b : list number) (this : PushIn) : PushIn :=
  mkPushIn (layers this) b (scrollPos this) (speedDelta this)
           (transitionLength this) (layerDepth this) (innerWidth this).

Definition set_layers (ls : list Layer) (this : PushIn) : PushIn :=
  mkPushIn ls (breakpoints this) (scrollPos this) (speedDelta this)
           (transitionLength this) (layerDepth this) (innerWidth this).

Definition set_params (p : Params) (layer : Layer) : Layer :=
  mkLayer (elem layer) (index layer) (originalScale layer) (ref layer) p.

Definition set_opacity (o : number) (e : Element) : Element :=
  mkElement (pushinSpeed e) (Some o) (transform e).

(** Methods that mutate [this]. *)
Abbreviation method := (state PushIn).

(** [getSpeed(elem)].  Without the attribute the default number 8 goes
    through [parseInt], which reads its decimal string. *)
Definition getSpeed (e : Element) : number :=
  let defaultSpeed := ofZ 8 in
  let speedInt :=
    match pushinSpeed e with
    | Some s => parseInt s
    | None => parseInt "8"
    end in
  let speedInt := if isNaN speedInt then defaultSpeed else speedInt in
  toNumber (or (Some speedInt) (Some (ofZ 8))).

(** [getBreakpointIndex()].  [Array.prototype.reverse] reverses the array
    it is called on, so [this.breakpoints] is left reversed. *)
Definition getBreakpointIndex : method Z :=
  this <- get ;;
  let reversed := rev (breakpoints this) in
  put (set_breakpoints reversed this) ;;
  let searchIndex := findIndex (fun bp => le bp (innerWidth this)) reversed in
  ret (if (searchIndex =? -1)%Z then 0%Z
       else (Z.of_nat (List.length reversed) - 1 - searchIndex)%Z).

Definition getInpoint (inpoints : list number) : method value :=
  i <- getBreakpointIndex ;;
  ret (or (item inpoints i) (item inpoints 0)).

Definition getOutpoint (outpoints : list number) : method value :=
  i <- getBreakpointIndex ;;
  ret (or (item outpoints i) (item outpoints 0)).

(** The body of the callback of [resetLayerParams]: the object literal is
    evaluated field by field, in order. *)
Definition resetLayer (layer : Layer) : method Layer :=
  i <- getInpoint (inpoints (ref layer)) ;;
  o <- getOutpoint (outpoints (ref layer)) ;;
  let s := getSpeed (elem layer) in
  ret (set_params (mkParams i o s) layer).

(** [forEach] with a callback that updates the visited layer. *)
Fixpoint forEach (f : Layer -> method Layer) (ls : list Layer)
  : method (list Layer) :=
  match ls with
  | [] => ret []
  | l :: r => l' <- f l ;; r' <- forEach f r ;; ret (l' :: r')
  end.

Definition resetLayerParams : method unit :=
  this <- get ;;
  ls <- forEach resetLayer (layers this) ;;
  this' <- get ;;
  put (set_layers ls this').

(** [isActive(layer)] *)
Definition isActive (this : PushIn) (layer : Layer) : bool :=
  let inpoint := toNumber (inpoint (params layer)) in
  let outpoint := toNumber (outpoint (params layer)) in
  ge (scrollPos this) inpoint && le (scrollPos this) outpoint.

(** The local constant [speed] of [getScaleValue]. *)
Definition speedFactor (speed : number) : number :=
  div (min speed (ofZ 100)) (ofZ 100).

(** [getScaleValue(layer)] *)
Definition getScaleValue (this : PushIn) (layer : Layer) : number :=
  let distance := sub (scrollPos this) (toNumber (inpoint (params layer))) in
  let speed := speedFactor (speed (params layer)) in
  let delta := div (mul distance speed) (ofZ 100) in
  max (add (originalScale layer) delta) (ofZ 0).

(** [setScale(elem, value)]: the same string goes to every vendor variant
    of [transform]. *)
Definition setScale (e : Element) (v : number) : Element :=
  mkElement (pushinSpeed e) (opacity e) (Some v).

(** The two local variables of [setLayerStyle], as last assigned. *)
Definition inpointDistance (this : PushIn) (layer : Layer) : number :=
  let isFirst := (index layer =? 0)%Z in
  let inpoint := toNumber (inpoint (params layer)) in
  if isFirst then ofZ 1
  else div (max (min (sub (scrollPos this) inpoint) (transitionLength this))
                (ofZ 0))
           (transitionLength this).

Definition outpointDistance (this : PushIn) (layer : Layer) : number :=
  let isLast := (index layer + 1 =? Z.of_nat (List.length (layers this)))%Z in
  let outpoint := toNumber (outpoint (params layer)) in
  if isLast then ofZ 1
  else div (max (min (sub outpoint (scrollPos this)) (transitionLength this))
                (ofZ 0))
           (transitionLength this).

(** [setLayerStyle(layer)]: the layer with its element's style updated. *)
Definition setLayerStyle (this : PushIn) (layer : Layer) : Layer :=
  let isFirst := (index layer =? 0)%Z in
  let isLast := (index layer + 1 =? Z.of_nat (List.length (layers this)))%Z in
  let inpoint := toNumber (inpoint (params layer)) in
  let outpoint := toNumber (outpoint (params layer)) in
  let with_elem (e : Element) :=
    mkLayer e (index layer) (originalScale layer) (ref layer) (params layer) in
  if isFirst && lt (scrollPos this) inpoint then
    with_elem (set_opacity (ofZ 1) (elem layer))
  else if isLast && gt (scrollPos this) outpoint then
    with_elem (set_opacity (ofZ 1) (elem layer))
  else if isActive this layer then
    let e := setScale (elem layer) (getScaleValue this layer) in
    with_elem
      (set_opacity (min (inpointDistance this layer)
                        (outpointDistance this layer)) e)
  else
    with_elem (set_opacity (ofZ 0) (elem layer)).

End PushIn.

(* ===================================================================== *)
(** * The TypeScript class [PushInLayer] *)
(* ===================================================================== *)

Module PushInLayer.

(** Modelled from the spec: the constant [DEFAULT_SPEED] is imported from
    [./constants], which is not among the sources; the spec documents the
    default speed as 8 (as does [getSpeed] of [src/pushin.js]). *)
Definition DEFAULT_SPEED : number := ofZ 8.

(** [LayerOptions] of the type declarations. *)
Record LayerOptions : Type := mkLayerOptions {
  opt_inpoints : list number;
  opt_outpoints : list number;
  opt_speed : number;
  opt_transitions : option bool;
  opt_transitionStart : option number;
  opt_transitionEnd : option number
}.

Record LayerRef : Type := mkLayerRef {
  ref_inpoints : list number;
  ref_outpoints : list number;
  ref_speed : number
}.

(** [LayerParams], with the fields [setLayerParams] assigns. *)
Record LayerParams : Type := mkLayerParams {
  depth : number;
  inpoint : number;
  outpoint : number;
  speed : number;
  transitions : bool;
  transitionStart : number;
  transitionEnd : number
}.

(** The part of the layer's element the calculations touch:
    [dataset[PUSH_IN_SPEED_DATA_ATTRIBUTE]] ([None] for [undefined]) and
    the style properties written ([None] until written; [transform] holds
    the [v] of [scale(v)]). *)
Record HTMLElement : Type := mkHTMLElement {
  pushinSpeed : option string;
  opacity : option number;
  transform : option number
}.

(** What a layer reads from its scene: [scene.layers.length],
    [scene.pushin.scrollY] and [scene.options.breakpoints]. *)
Record PushInScene : Type := mkPushInScene {
  layers_length : nat;
  scrollY : number;
  breakpoints : list number
}.

Record PushInLayer : Type := mkPushInLayer {
  element : HTMLElement;
  index : Z;
  scene : PushInScene;
  options : option LayerOptions;
  params : LayerParams;
  originalScale : number;
  ref : LayerRef
}.

Definition set_element (e : HTMLElement) (this : PushInLayer) : PushInLayer :=
  mkPushInLayer e (index this) (scene this) (options this) (params this)
                (originalScale this) (ref this).

Definition set_opacity (o : number) (e : HTMLElement) : HTMLElement :=
  mkHTMLElement (pushinSpeed e) (Some o) (transform e).

(** [getSpeed(element)] *)
Definition getSpeed (this : PushInLayer) (element : HTMLElement) : number :=
  let speed : value :=
    if truthyString (pushinSpeed element) then
      let speed :=
        match pushinSpeed element with
        | Some s => parseInt s
        | None => NaN
        end in
      if isNaN speed then Some DEFAULT_SPEED else Some speed
    else if truthy (option_map opt_speed (options this)) then
      option_map opt_speed (options this)
    else None in
  toNumber (or speed (Some DEFAULT_SPEED)).

Section BreakpointIndex.

(** [PushInScene.getBreakpointIndex] lives in a file that is not among the
    sources; the two getters below are embedded over whatever index it
    returns. *)
Variable getBreakpointIndex : PushInScene -> list number -> Z.

Definition getInpoint (this : PushInLayer) (inpoints : list number) : value :=
  let breakpoints := breakpoints (scene this) in
  or (item inpoints (getBreakpointIndex (scene this) breakpoints))
     (item inpoints 0).

Definition getOutpoint (this : PushInLayer) (outpoints : list number) : value :=
  let breakpoints := breakpoints (scene this) in
  or (item outpoints (getBreakpointIndex (scene this) breakpoints))
     (item outpoints 0).

End BreakpointIndex.

(** [isActive()] *)
Definition isActive (this : PushInLayer) : bool :=
  let inpoint := inpoint (params this) in
  let outpoint := outpoint (params this) in
  if transitions (params this) then
    let min := ge (scrollY (scene this)) inpoint in
    let max := le (scrollY (scene this)) outpoint in
    min && max
  else true.

(** The local constant [speed] of [getScaleValue]. *)
Definition speedFactor (speed : number) : number :=
  div (min speed (ofZ 100)) (ofZ 100).

(** [getScaleValue(layer)] *)
Definition getScaleValue (this layer : PushInLayer) : number :=
  let distance := sub (scrollY (scene this)) (inpoint (params layer)) in
  let speed := speedFactor (speed (params layer)) in
  let delta := div (mul distance speed) (ofZ 100) in
  max (add (originalScale layer) delta) (ofZ 0).

(** [setScale(element, value)] *)
Definition setScale (e : HTMLElement) (v : number) : HTMLElement :=
  mkHTMLElement (pushinSpeed e) (opacity e) (Some v).

(** The two local variables of [setLayerStyle], as last assigned. *)
Definition inpointDistance (this : PushInLayer) : number :=
  let isFirst := (index this =? 0)%Z in
  if isFirst then ofZ 1
  else div (max (min (sub (scrollY (scene this)) (inpoint (params this)))
                     (transitionStart (params this)))
                (ofZ 0))
           (transitionStart (params this)).

Definition outpointDistance (this : PushInLayer) : number :=
  let isLast := (index this + 1 =? Z.of_nat (layers_length (scene this)))%Z in
  if isLast then ofZ 1
  else div (max (min (sub (outpoint (params this)) (scrollY (scene this)))
                     (transitionEnd (params this)))
                (ofZ 0))
           (transitionEnd (params this)).

(** [setLayerStyle()]: the layer with its element's style updated. *)
Definition setLayerStyle (this : PushInLayer) : PushInLayer :=
  let isFirst := (index this =? 0)%Z in
  let isLast := (index this + 1 =? Z.of_nat (layers_length (scene this)))%Z in
  let inpoint := inpoint (params this) in
  let outpoint := outpoint (params this) in
  if isFirst && lt (scrollY (scene this)) inpoint then
    set_element (set_opacity (ofZ 1) (element this)) this
  else if isLast && gt (scrollY (scene this)) outpoint then
    let e :=
      if negb (transitions (params this))
      then setScale (element this) (getScaleValue this this)
      else element this in
    set_element (set_opacity (ofZ 1) e) this
  else if isActive this then
    let e := setScale (element this) (getScaleValue this this) in
    let opacity :=
      if transitions (params this)
      then min (inpointDistance this) (outpointDistance this)
      else ofZ 1 in
    set_element (set_opacity opacity e) this
  else
    set_element (set_opacity (ofZ 0) (element this)) this.

End PushInLayer.

(* ===================================================================== *)
(** * Specification predicates *)
(* ===================================================================== *)

(** [i] is the largest index of [B] whose entry is at most [W]. *)
Definition largest_index_le (B : list number) (W : number) (i : Z) : Prop :=
  (exists b, item B i = Some b /\ le b W = true) /\
  (forall j b, (i < j)%Z -> item B j = Some b -> le b W = false).

(** A finite number within the closed unit interval. *)
Definition in_unit_interval (a : number) : Prop :=
  exists q, a = Num q /\ 0 <= q <= 1.


(** Ascending order of a breakpoint list. *)
Fixpoint ascending (B : list number) : Prop :=
  match B with
  | [] => True
  | a :: r => match r with
              | [] => True
              | b :: _ => le a b = true
              end /\ ascending r
  end.

(** [r] is [values[i]] when that entry is truthy and [values[0]]
    otherwise; in particular a zero entry is passed over. *)
Definition resolved_from (values : list number) (i : Z) (r : value) : Prop :=
  (truthy (item values i) = true -> r = item values i) /\
  (truthy (item values i) = false -> r = item values 0) /\
  (forall q, item values i = Some (Num q) -> q == 0 -> r = item values 0).

(** The formula of the scale: [max(os + (pos - ip) * (min(sp, 100) / 100) / 100, 0)]. *)
Definition scale_formula (os pos ip sp : Q) : Q :=
  Qmax (os + (pos - ip) * (Qmin sp 100 / 100) / 100) 0.

(** The expression of [getScaleValue] over its three operands: the
    original scale, the distance scrolled past the inpoint, the speed. *)
Definition scaleOf (os distance speed : number) : number :=
  max (add os (div (mul distance (div (min speed (ofZ 100)) (ofZ 100)))
                   (ofZ 100)))
      (ofZ 0).

(* ===================================================================== *)
(** * Sample configurations *)
(* ===================================================================== *)

Module Sample.

(** A scene of [n] layers scrolled to [pos], with the default breakpoints. *)
Definition scene (n : nat) (pos : Z) : PushInLayer.PushInScene :=
  PushInLayer.mkPushInScene n (ofZ pos) (map ofZ [0; 768; 1440; 1920]%Z).

(** A layer of the TypeScript class: ordinal [i] of [n], window
    [[from, to]], the given speed and transitions setting, transition
    windows of 200 pixels, original scale 1, no style written yet. *)
Definition layer (i : Z) (n : nat) (pos from to speed : Z) (transitions : bool)
  (attr : option string) (options : option PushInLayer.LayerOptions)
  : PushInLayer.PushInLayer :=
  PushInLayer.mkPushInLayer
    (PushInLayer.mkHTMLElement attr None None)
    i (scene n pos) options
    (PushInLayer.mkLayerParams (ofZ (to - from)) (ofZ from) (ofZ to)
       (ofZ speed) transitions (ofZ 200) (ofZ 200))
    (ofZ 1)
    (PushInLayer.mkLayerRef [ofZ from] [ofZ to] (ofZ speed)).

(** Programmatic layer options that set the speed only. *)
Definition options_speed (speed : Z) : PushInLayer.LayerOptions :=
  PushInLayer.mkLayerOptions [] [] (ofZ speed) None None None.

(** A layer of [src/pushin.js] with the given speed attribute. *)
Definition js_layer (i : Z) (from to speed : Z) (attr : option string)
  : PushIn.Layer :=
  PushIn.mkLayer
    (PushIn.mkElement attr None None)
    i (ofZ 1)
    (PushIn.mkRef [ofZ from] [ofZ to])
    (PushIn.mkParams (Some (ofZ from)) (Some (ofZ to)) (ofZ speed)).

(** The object of [src/pushin.js] as [start()] sets it up (speed delta 100,
    transition length 200, layer depth 1000, default breakpoints), holding
    the given layers, scrolled to [pos] in a viewport [width] pixels wide. *)
Definition js_pushin (ls : list PushIn.Layer) (pos width : Z) : PushIn.PushIn :=
  PushIn.mkPushIn ls (map ofZ [0; 768; 1440; 1920]%Z) (ofZ pos)
    (ofZ 100) (ofZ 200) (ofZ 1000) (ofZ width).

(** The decimal string of [10 ^ n], a 1 followed by [n] zeros: from
    [n = 309] on [parseInt] reads [Infinity] from it. *)
Fixpoint zeros (n : nat) : string :=
  match n with
  | O => EmptyString
  | S k => String "0" (zeros k)
  end.

Definition powerOfTen (n : nat) : string := String "1" (zeros n).

End Sample.

(* ===================================================================== *)
(** * Strings of the configuration attributes *)
(* ===================================================================== *)

Module JSString.

Definition isComma (c : ascii) : bool := (nat_of_ascii c =? 44)%nat.

(** [s.split(',')]: the fields between the commas, at least one. *)
Fixpoint split (s : string) : list string :=
  match s with
  | EmptyString => [EmptyString]
  | String c r =>
      if isComma c then EmptyString :: split r
      else match split r with
           | h :: t => String c h :: t
           | [] => [String c EmptyString]
           end
  end.

(** [s.trim()]: white space is dropped at both ends. *)
Definition allWhiteSpace (s : string) : bool :=
  match skipWhiteSpace s with
  | EmptyString => true
  | String _ _ => false
  end.

Fixpoint trimEnd (s : string) : string :=
  match s with
  | EmptyString => EmptyString
  | String c r => if allWhiteSpace s then EmptyString else String c (trimEnd r)
  end.

Definition trim (s : string) : string := trimEnd (skipWhiteSpace s).

(** The callback [v => parseInt(v.trim(), 10)] mapped over the fields. *)
Definition parseList (s : string) : list number :=
  map (fun v => parseInt (trim v)) (split s).

End JSString.

(* ===================================================================== *)
(** * [src/pushin.js]: set-up, events and rendering *)
(* ===================================================================== *)

Module PushInStart.

Import PushIn.

(** What the set-up reads from the scene element: the top of its bounding
    rectangle and two attributes of its [dataset] ([None] when absent). *)
Record SceneElement : Type := mkSceneElement {
  top : number;
  scene_pushinBreakpoints : option string;
  scene_pushinFrom : option string
}.

(** A layer element as [getLayers] finds it: the part [PushIn.Element]
    keeps, the attributes [data-pushin-from] and [data-pushin-to], and the
    number [getElementScaleX] extracts from its computed transform. *)
Record LayerElement : Type := mkLayerElement {
  element : Element;
  pushinFrom : option string;
  pushinTo : option string;
  scaleX : number
}.

Definition set_scrollPos (p : number) (this : PushIn) : PushIn :=
  mkPushIn (layers this) (breakpoints this) p (speedDelta this)
           (transitionLength this) (layerDepth this) (innerWidth this).

(** [setBreakpoints()] *)
Definition setBreakpoints (scene : SceneElement) : method unit :=
  this <- get ;;
  let breakpoints := map ofZ [768; 1440; 1920]%Z in
  let breakpoints :=
    match scene_pushinBreakpoints scene with
    | Some s => if truthyString (Some s) then JSString.parseList s
                else breakpoints
    | None => breakpoints
    end in
  put (set_breakpoints (ofZ 0 :: breakpoints) this).

(** [getInpoints(elem, i)]; [None] stands for the TypeError of reading
    [params] of a layer [this.layers[i - 1]] that does not exist. *)
Definition getInpoints (scene : SceneElement) (this : PushIn)
  (elem : LayerElement) (i : Z) : option (list number) :=
  match pushinFrom elem with
  | Some s => Some (JSString.parseList s)
  | None =>
      match (i =? 0)%Z, scene_pushinFrom scene with
      | true, Some s => Some (JSString.parseList s)
      | _, _ =>
          if (i >? 0)%Z then
            match item (layers this) (i - 1) with
            | Some previous =>
                let outpoint := toNumber (outpoint (params previous)) in
                Some [sub outpoint (speedDelta this)]
            | None => None
            end
          else Some [top scene]
      end
  end.

(** [getOutpoints(elem, inpoint)] *)
Definition getOutpoints (this : PushIn) (elem : LayerElement)
  (inpoint : value) : list number :=
  match pushinTo elem with
  | Some s => JSString.parseList s
  | None => [add (toNumber inpoint) (layerDepth this)]
  end.

(** [setZIndex(layer, total)]: the value written to the element's
    [zIndex]. *)
Definition setZIndex (layer : Layer) (total : Z) : Z :=
  (total - index layer)%Z.

(** One round of the loop of [getLayers]: the layer is built (the object
    literal is evaluated field by field), pushed, and its z-index written;
    the result is that z-index. *)
Definition getLayer (scene : SceneElement) (total : Z)
  (elem : LayerElement) (i : Z) : method (option Z) :=
  this <- get ;;
  match getInpoints scene this elem i with
  | None => ret None
  | Some inpoints =>
      let outpoints := getOutpoints this elem (item inpoints 0) in
      inp <- getInpoint inpoints ;;
      outp <- getOutpoint outpoints ;;
      let layer :=
        mkLayer (element elem) i (scaleX elem) (mkRef inpoints outpoints)
                (mkParams inp outp (getSpeed (element elem))) in
      this' <- get ;;
      put (set_layers (layers this' ++ [layer]) this') ;;
      ret (Some (setZIndex layer total))
  end.

Fixpoint getLayers_from (scene : SceneElement) (total : Z)
  (elems : list LayerElement) (i : Z) : method (option (list Z)) :=
  match elems with
  | [] => ret (Some [])
  | elem :: rest =>
      z <- getLayer scene total elem i ;;
      match z with
      | None => ret None
      | Some z =>
          zs <- getLayers_from scene total rest (i + 1) ;;
          ret (option_map (cons z) zs)
      end
  end.

(** [getLayers()] over the elements of class [pushin-layer], in document
    order; the result lists the z-indices written. *)
Definition getLayers (scene : SceneElement) (elems : list LayerElement)
  : method (option (list Z)) :=
  getLayers_from scene (Z.of_nat (List.length elems)) elems 0.

(** [toggleLayers()] *)
Definition toggleLayers : method unit :=
  this <- get ;;
  put (set_layers (map (setLayerStyle this) (layers this)) this).

(** The assignment of the [touchmove] listener.  [scrollEnd], [touchStart]
    and [pageHeight] are properties of the object that exist only once
    something has assigned them. *)
Definition touchmove (scrollEnd touchStart pageHeight : value)
  (touchMove innerHeight : number) : method unit :=
  this <- get ;;
  let scrollPos :=
    max (sub (add (toNumber scrollEnd) (toNumber touchStart)) touchMove)
        (ofZ 0) in
  let scrollPos := min scrollPos (sub (toNumber pageHeight) innerHeight) in
  put (set_scrollPos scrollPos this).

(** The result of the call number [n + 1] of [getBreakpointIndex] in a
    row. *)
Fixpoint nthCall (n : nat) : method Z :=
  match n with
  | O => getBreakpointIndex
  | S k => getBreakpointIndex ;; nthCall k
  end.

End PushInStart.

(* ===================================================================== *)
(** * [PushInLayer]: transition settings and visibility *)
(* ===================================================================== *)

Module PushInLayerSettings.

Import PushInLayer.

Section Settings.

(** The constant [PUSH_IN_DEFAULT_TRANSITION_LENGTH] is imported from
    [./constants], which is not among the sources. *)
Variable PUSH_IN_DEFAULT_TRANSITION_LENGTH : number.

(** [getTransitions()]; [attr] is the value of [data-pushin-transitions],
    [None] when the element has no such attribute. *)
Definition getTransitions (this : PushInLayer) (attr : option string) : bool :=
  let transitions :=
    match option_map opt_transitions (options this) with
    | Some (Some b) => b
    | _ => true
    end in
  match attr with
  | Some s =>
      if truthyString (Some s)
      then negb (String.eqb s "false") && negb (String.eqb s "0")
      else transitions
  | None => transitions
  end.

(** [getTransitionStart()], with the value of
    [data-pushin-transition-start]. *)
Definition getTransitionStart (this : PushInLayer) (attr : option string)
  : number :=
  let start :=
    match option_map opt_transitionStart (options this) with
    | Some (Some n) => n
    | _ => PUSH_IN_DEFAULT_TRANSITION_LENGTH
    end in
  match attr with
  | Some s => parseInt s
  | None => start
  end.

(** [getTransitionEnd()], with the value of [data-pushin-transition-end]. *)
Definition getTransitionEnd (this : PushInLayer) (attr : option string)
  : number :=
  let end_ :=
    match option_map opt_transitionEnd (options this) with
    | Some (Some n) => n
    | _ => PUSH_IN_DEFAULT_TRANSITION_LENGTH
    end in
  match attr with
  | Some s => parseInt s
  | None => end_
  end.

(** The three transition attributes of the layer's element, each [None]
    when the element does not carry it. *)
Record TransitionAttributes : Type := mkTransitionAttributes {
  pushinTransitions : option string;
  pushinTransitionStart : option string;
  pushinTransitionEnd : option string
}.

(** The scene's [getBreakpointIndex], which is not among the sources. *)
Variable getBreakpointIndex : PushInScene -> list number -> Z.

(** [getDepth()] *)
Definition getDepth (this : PushInLayer) : number :=
  sub (toNumber (getOutpoint getBreakpointIndex this (ref_outpoints (ref this))))
      (toNumber (getInpoint getBreakpointIndex this (ref_inpoints (ref this)))).

(** [setLayerParams()]: the layer with its params replaced.  A window
    bound that resolves to [undefined] is kept as the [NaN] every later
    use turns it into. *)
Definition setLayerParams (this : PushInLayer) (attrs : TransitionAttributes)
  : PushInLayer :=
  mkPushInLayer (element this) (index this) (scene this) (options this)
    (mkLayerParams
       (getDepth this)
       (toNumber (getInpoint getBreakpointIndex this (ref_inpoints (ref this))))
       (toNumber (getOutpoint getBreakpointIndex this (ref_outpoints (ref this))))
       (ref_speed (ref this))
       (getTransitions this (pushinTransitions attrs))
       (getTransitionStart this (pushinTransitionStart attrs))
       (getTransitionEnd this (pushinTransitionEnd attrs)))
    (originalScale this) (ref this).

End Settings.

(** [setLayerVisibility()]: whether the element carries the class
    [pushin-layer--visible] afterwards.  The opacity is read back from the
    style, where [setLayerStyle] stored it; a style never written reads as
    the empty string, which [parseFloat] turns into [NaN]. *)
Definition setLayerVisibility (this : PushInLayer) : bool :=
  gt (toNumber (opacity (element this))) (Num (1 # 10)).

(** The layer with its resolved window and transition settings replaced. *)
Definition with_params (p : LayerParams) (this : PushInLayer) : PushInLayer :=
  mkPushInLayer (element this) (index this) (scene this) (options this) p
                (originalScale this) (ref this).

End PushInLayerSettings.

(* ===================================================================== *)
(** * Specification predicates for the set-up *)
(* ===================================================================== *)

(** The layers follow one another from the scroll position [start]: each
    lasts [depth], the next one enters [gap] before it leaves; their
    indices count up from [i]. *)
Fixpoint chained (depth gap start : Q) (i : Z) (ls : list PushIn.Layer)
  : Prop :=
  match ls with
  | [] => True
  | l :: r =>
      PushIn.index l = i /\
      (exists a b,
         PushIn.inpoint (PushIn.params l) = Some (Num a) /\ a == start /\
         PushIn.outpoint (PushIn.params l) = Some (Num b) /\
         b == start + depth) /\
      chained depth gap (start + depth - gap) (i + 1) r
  end.

(** The z-indices [total - i], [total - (i + 1)], ... of [n] layers. *)
Fixpoint zIndices (total i : Z) (n : nat) : list Z :=
  match n with
  | O => []
  | S k => (total - i)%Z :: zIndices total (i + 1) k
  end.

(* ===================================================================== *)
(** * Facts about the JavaScript operations *)
(* ===================================================================== *)

Section ArrayFacts.

Context {A : Type} (p : A -> bool).

Lemma findIndex_range (a : list A) :
  (-1 <= findIndex p a < Z.of_nat (List.length a))%Z.
Proof.
  induction a as [|x r IH]; simpl; [lia|].
  destruct (p x); [lia|].
  destruct (findIndex p r =? -1)%Z eqn:E; lia.
Qed.

(** A hit of [findIndex] satisfies the predicate and nothing before it does. *)
Lemma findIndex_hit (a : list A) (k : nat) :
  findIndex p a = Z.of_nat k ->
  (exists x, nth_error a k = Some x /\ p x = true) /\
  (forall j y, (j < k)%nat -> nth_error a j = Some y -> p y = false).
Proof.
  revert k; induction a as [|x r IH]; intros k; simpl.
  - lia.
  - destruct (p x) eqn:Px.
    + intros E. assert (k = 0%nat) by lia. subst k. split.
      * exists x. auto.
      * intros j y Hj. lia.
    + destruct (findIndex p r =? -1)%Z eqn:E; [lia|].
      intros Hk. apply Z.eqb_neq in E.
      pose proof (findIndex_range r) as R.
      destruct k as [|k]; [lia|].
      destruct (IH k) as [[y [Hy Py]] Hbefore]; [lia|].
      split.
      * exists y. auto.
      * intros [|j] z Hj; simpl.
        -- intros [= <-]. exact Px.
        -- apply Hbefore. lia.
Qed.

Lemma findIndex_miss (a : list A) :
  findIndex p a = (-1)%Z -> forall x, In x a -> p x = false.
Proof.
  induction a as [|x r IH]; simpl; [tauto|].
  destruct (p x) eqn:Px; [lia|].
  destruct (findIndex p r =? -1)%Z eqn:E.
  - apply Z.eqb_eq in E. intros _ y [<-|Hy]; auto.
  - pose proof (findIndex_range r). apply Z.eqb_neq in E. lia.
Qed.

End ArrayFacts.

Lemma item_nth_error {A : Type} (a : list A) (k : nat) :
  item a (Z.of_nat k) = nth_error a k.
Proof.
  unfold item. destruct (Z.of_nat k <? 0)%Z eqn:E.
  - apply Z.ltb_lt in E. lia.
  - now rewrite Nat2Z.id.
Qed.

Lemma item_Some_range {A : Type} (a : list A) (i : Z) (x : A) :
  item a i = Some x -> (0 <= i < Z.of_nat (List.length a))%Z.
Proof.
  unfold item. destruct (i <? 0)%Z eqn:E; [discriminate|].
  apply Z.ltb_ge in E. intros H.
  assert (Z.to_nat i < List.length a)%nat
    by (apply nth_error_Some; congruence).
  lia.
Qed.

(** Reading a reversed array. *)
Lemma nth_error_reversed {A : Type} (a : list A) (k : nat) :
  (k < List.length a)%nat ->
  nth_error (rev a) k = nth_error a (List.length a - 1 - k).
Proof.
  intros Hk.
  destruct (nth_error a (List.length a - 1 - k)) as [x|] eqn:E.
  - rewrite (nth_error_nth' (rev a) x) by (rewrite length_rev; lia).
    rewrite rev_nth by lia.
    rewrite (nth_error_nth' a x) in E by lia.
    replace (List.length a - S k)%nat with (List.length a - 1 - k)%nat by lia.
    exact E.
  - apply nth_error_None in E. lia.
Qed.

Lemma largest_index_le_unique (B : list number) (W : number) (i j : Z) :
  largest_index_le B W i -> largest_index_le B W j -> i = j.
Proof.
  intros [[b [Hb Lb]] Hi] [[c [Hc Lc]] Hj].
  destruct (Z.lt_trichotomy i j) as [H|[H|H]]; [|exact H|].
  - specialize (Hi j c H Hc). congruence.
  - specialize (Hj i b H Hb). congruence.
Qed.

(* ===================================================================== *)
(** * [PushIn.getBreakpointIndex] *)
(* ===================================================================== *)

Section BreakpointIndex.

Import PushIn.

Variable this : PushIn.

Let B := breakpoints this.
Let W := innerWidth this.

(** Every call leaves [this.breakpoints] reversed. *)
Lemma getBreakpointIndex_state :
  execState getBreakpointIndex this = set_breakpoints (rev B) this.
Proof. reflexivity. Qed.

Lemma getBreakpointIndex_value :
  evalState getBreakpointIndex this =
  let k := findIndex (fun bp => le bp W) (rev B) in
  if (k =? -1)%Z then 0%Z else (Z.of_nat (List.length (rev B)) - 1 - k)%Z.
Proof. reflexivity. Qed.

(** On an array in its configured order a call returns the largest index
    whose breakpoint is at most the viewport width (whatever the order of
    the entries, as soon as one of them qualifies). *)
Lemma getBreakpointIndex_first_call :
  (exists b, In b B /\ le b W = true) ->
  largest_index_le B W (evalState getBreakpointIndex this).
Proof.
  intros [b0 [Hin Hle]].
  rewrite getBreakpointIndex_value. cbv zeta.
  pose proof (findIndex_range (fun bp => le bp W) (rev B)) as R.
  destruct (findIndex (fun bp => le bp W) (rev B) =? -1)%Z eqn:E.
  - apply Z.eqb_eq in E.
    pose proof (findIndex_miss _ _ E b0) as M.
    rewrite M in Hle; [discriminate | now apply in_rev in Hin].
  - apply Z.eqb_neq in E.
    rewrite length_rev in *.
    remember (findIndex (fun bp => le bp W) (rev B)) as k eqn:Hk.
    assert (Hk' : k = Z.of_nat (Z.to_nat k)) by lia.
    rewrite Hk' in Hk. symmetry in Hk.
    destruct (findIndex_hit _ _ _ Hk) as [[x [Hx Px]] Hbefore].
    assert (Hlt : (Z.to_nat k < List.length B)%nat) by lia.
    split.
    + exists x. split; [|exact Px].
      replace (Z.of_nat (List.length B) - 1 - k)%Z
        with (Z.of_nat (List.length B - 1 - Z.to_nat k)) by lia.
      rewrite item_nth_error, <- nth_error_reversed by exact Hlt. exact Hx.
    + intros j b Hj Hb.
      pose proof (item_Some_range _ _ _ Hb) as Rj.
      apply (Hbefore (List.length B - 1 - Z.to_nat j)%nat b); [lia|].
      rewrite nth_error_reversed by lia.
      replace (List.length B - 1 - (List.length B - 1 - Z.to_nat j))%nat
        with (Z.to_nat j) by lia.
      unfold item in Hb. destruct (j <? 0)%Z; [discriminate | exact Hb].
Qed.

(** A second call works on the array the first call left reversed: with
    0 in front and a viewport width that is not negative, the search stops
    at once and the last index comes back. *)
Lemma getBreakpointIndex_second_call (r : list number) (w : Q) :
  B = ofZ 0 :: r -> W = Num w -> 0 <= w ->
  evalState (getBreakpointIndex ;; getBreakpointIndex) this =
  (Z.of_nat (List.length B) - 1)%Z.
Proof.
  intros HB HW Hw.
  change (evalState (getBreakpointIndex ;; getBreakpointIndex) this)
    with (evalState getBreakpointIndex (set_breakpoints (rev B) this)).
  unfold evalState. simpl. fold B W.
  rewrite rev_involutive, HB, HW. simpl.
  assert (E : Qle_bool (inject_Z 0) w = true) by (apply Qle_bool_iff; exact Hw).
  rewrite E. simpl. lia.
Qed.

End BreakpointIndex.

(** C1 (the code breaks it on repeated invocation).  With breakpoints
    [0, 768, 1440, 1920] and a viewport 1000 pixels wide, the first call of
    [getBreakpointIndex] returns 1, the largest index whose breakpoint is
    at most 1000; the second call on the same object returns 3, whose
    breakpoint 1920 exceeds the width, because the first call left
    [this.breakpoints] reversed. *)
Theorem getBreakpointIndex_second_invocation :
  let B := map ofZ [0; 768; 1440; 1920]%Z in
  let W := ofZ 1000 in
  let this := Sample.js_pushin [] 0 1000 in
  PushIn.breakpoints this = B /\ PushIn.innerWidth this = W /\
  ascending B /\
  evalState PushIn.getBreakpointIndex this = 1%Z /\
  largest_index_le B W 1 /\
  evalState (PushIn.getBreakpointIndex ;; PushIn.getBreakpointIndex) this
    = 3%Z /\
  ~ largest_index_le B W 3.
Proof.
  intros B W this.
  split; [reflexivity|]. split; [reflexivity|].
  split; [vm_compute; tauto|].
  split; [reflexivity|].
  split.
  - change 1%Z with (evalState PushIn.getBreakpointIndex this).
    apply getBreakpointIndex_first_call.
    exists (ofZ 0). split; [left; reflexivity | reflexivity].
  - split; [reflexivity|].
    intros [[b [Hb Hle]] _].
    vm_compute in Hb. injection Hb as <-. vm_compute in Hle. discriminate.
Qed.

(* ===================================================================== *)
(** * [PushIn.resetLayerParams] *)
(* ===================================================================== *)

Section ResetLayerParams.

Import PushIn.

Lemma set_breakpoints_same (this : PushIn) :
  set_breakpoints (breakpoints this) this = this.
Proof. now destruct this. Qed.

(** Resolving one layer calls [getBreakpointIndex] twice, once for the
    inpoint and once for the outpoint: the object comes back unchanged. *)
Lemma resetLayer_state (this : PushIn) (l : Layer) :
  execState (resetLayer l) this = this.
Proof.
  unfold execState. simpl.
  unfold set_breakpoints; simpl.
  rewrite rev_involutive. now destruct this.
Qed.

(** The resolved layer depends on the object through its breakpoints and
    the viewport width only. *)
Lemma resetLayer_value_layers (this : PushIn) (ls : list Layer) (l : Layer) :
  evalState (resetLayer l) (set_layers ls this) = evalState (resetLayer l) this.
Proof. reflexivity. Qed.

(** The resolved layer does not depend on the params it replaces. *)
Lemma resetLayer_value_again (this : PushIn) (l : Layer) :
  evalState (resetLayer (evalState (resetLayer l) this)) this =
  evalState (resetLayer l) this.
Proof. reflexivity. Qed.

Lemma forEach_resetLayer (this : PushIn) (ls : list Layer) :
  runState (forEach resetLayer ls) this =
  (map (fun l => evalState (resetLayer l) this) ls, this).
Proof.
  induction ls as [|l r IH].
  - reflexivity.
  - change (runState (forEach resetLayer (l :: r)) this)
      with (let (l', s1) := runState (resetLayer l) this in
            let (r', s2) := runState (forEach resetLayer r) s1 in
            (l' :: r', s2)).
    assert (E : runState (resetLayer l) this =
                (evalState (resetLayer l) this, this)).
    { pose proof (resetLayer_state this l) as Hs.
      unfold execState in Hs. unfold evalState.
      destruct (runState (resetLayer l) this) as [l' s1].
      simpl in Hs. now subst s1. }
    rewrite E, IH. reflexivity.
Qed.

Lemma resetLayerParams_run (this : PushIn) :
  execState resetLayerParams this =
  set_layers (map (fun l => evalState (resetLayer l) this) (layers this)) this.
Proof.
  unfold execState.
  change (runState resetLayerParams this)
    with (let (ls, s1) := runState (forEach resetLayer (layers this)) this in
          (tt, set_layers ls s1)).
  rewrite forEach_resetLayer. reflexivity.
Qed.

End ResetLayerParams.

(** C6.  Running [resetLayerParams] twice in succession (same object, same
    viewport width) leaves the object, and so the resolved params of every
    layer, exactly as one run does. *)
Theorem resetLayerParams_idempotent (this : PushIn.PushIn) :
  let once := execState PushIn.resetLayerParams this in
  let twice := execState PushIn.resetLayerParams once in
  twice = once /\
  map PushIn.params (PushIn.layers twice) =
  map PushIn.params (PushIn.layers once).
Proof.
  cbv zeta.
  assert (E : execState PushIn.resetLayerParams
                (execState PushIn.resetLayerParams this) =
              execState PushIn.resetLayerParams this).
  { rewrite !resetLayerParams_run.
    set (resolved := map (fun l => evalState (PushIn.resetLayer l) this)
                         (PushIn.layers this)).
    assert (R : map (fun l => evalState (PushIn.resetLayer l)
                                (PushIn.set_layers resolved this)) resolved
                = resolved).
    { unfold resolved. rewrite map_map. apply map_ext. intros l.
      rewrite resetLayer_value_layers. apply resetLayer_value_again. }
    unfold PushIn.set_layers at 1. simpl. rewrite R. reflexivity. }
  split; [exact E | now rewrite E].
Qed.

(* ===================================================================== *)
(** * Numbers: comparisons and clamping *)
(* ===================================================================== *)

Lemma le_Num (a b : Q) : le (Num a) (Num b) = true <-> a <= b.
Proof. simpl. apply Qle_bool_iff. Qed.

Lemma lt_Num (a b : Q) : lt (Num a) (Num b) = true <-> a < b.
Proof.
  simpl. rewrite negb_true_iff. split.
  - intros H. apply Qnot_le_lt. intros L.
    apply Qle_bool_iff in L. congruence.
  - intros H. destruct (Qle_bool b a) eqn:E; [|reflexivity].
    apply Qle_bool_iff in E. exfalso. exact (Qlt_not_le _ _ H E).
Qed.

Lemma Qeq_bool_pos (t : Q) : 0 < t -> Qeq_bool t 0 = false.
Proof.
  intros H. destruct (Qeq_bool t 0) eqn:E; [|reflexivity].
  apply Qeq_bool_iff in E. rewrite E in H. exfalso. exact (Qlt_irrefl _ H).
Qed.


(** The clamped ratio [max(min(d, t), 0) / t] of a finite distance over a
    positive window is a number of the unit interval. *)
Lemma clamp_ratio_unit (d t : Q) :
  0 < t ->
  in_unit_interval (div (max (min (Num d) (Num t)) (ofZ 0)) (Num t)).
Proof.
  intros Ht. simpl. rewrite (Qeq_bool_pos t Ht).
  eexists. split; [reflexivity|].
  assert (L : 0 <= Qmax (Qmin d t) 0) by apply Q.le_max_r.
  assert (U : Qmax (Qmin d t) 0 <= t).
  { apply Q.max_lub; [apply Q.le_min_r | now apply Qlt_le_weak]. }
  split.
  - apply Qle_shift_div_l; [exact Ht|]. now rewrite Qmult_0_l.
  - apply Qle_shift_div_r; [exact Ht|]. now rewrite Qmult_1_l.
Qed.

(** The same for any distance but [NaN]: an infinite distance is clamped
    like a finite one. *)
Lemma clamp_ratio_unit_inf (d : number) (t : Q) :
  d <> NaN -> 0 < t ->
  in_unit_interval (div (max (min d (Num t)) (ofZ 0)) (Num t)).
Proof.
  intros Hd Ht. destruct d as [d| | |].
  - now apply clamp_ratio_unit.
  - now destruct Hd.
  - simpl. rewrite (Qeq_bool_pos t Ht).
    eexists. split; [reflexivity|].
    rewrite Q.max_l by now apply Qlt_le_weak.
    split.
    + apply Qle_shift_div_l; [exact Ht|]. rewrite Qmult_0_l.
      now apply Qlt_le_weak.
    + apply Qle_shift_div_r; [exact Ht|]. rewrite Qmult_1_l. apply Qle_refl.
  - simpl. rewrite (Qeq_bool_pos t Ht).
    eexists. split; [reflexivity|]. split.
    + apply Qle_shift_div_l; [exact Ht|]. rewrite Qmult_0_l. discriminate.
    + apply Qle_shift_div_r; [exact Ht|]. rewrite Qmult_1_l.
      now apply Qlt_le_weak.
Qed.

(** A window of length zero: the numerator of the ratio is 0 or [NaN], so
    the quotient is [NaN] and never an infinity. *)
Lemma clamp_zero_divisor (d : number) (t : Q) :
  t == 0 ->
  let n := max (min d (Num t)) (ofZ 0) in
  n = NaN \/ exists q, n = Num q /\ q == 0.
Proof.
  intros Ht. destruct d as [d| | |]; [right | left; reflexivity | right | right].
  - eexists. split; [reflexivity|].
    apply Qle_antisym; [|apply Q.le_max_r].
    apply Q.max_lub; [|apply Qle_refl].
    apply Qle_trans with t; [apply Q.le_min_r | rewrite Ht; apply Qle_refl].
  - eexists. split; [reflexivity|].
    apply Qle_antisym; [|apply Q.le_max_r].
    apply Q.max_lub; [rewrite Ht|]; apply Qle_refl.
  - exists 0. split; reflexivity.
Qed.

(* ===================================================================== *)
(** * Resolution of per-breakpoint values *)
(* ===================================================================== *)

Lemma or_resolved (values : list number) (i : Z) :
  resolved_from values i (or (item values i) (item values 0)).
Proof.
  unfold resolved_from, or.
  destruct (truthy (item values i)) eqn:T; repeat split; try congruence.
  intros q Hq Hz. rewrite Hq in T. simpl in T.
  apply Qeq_bool_iff in Hz. rewrite Hz in T. discriminate.
Qed.

(** C2.  For a non-empty list [values] and the breakpoint index [i] the
    resolver returns, [getInpoint] and [getOutpoint] return [values[i]]
    when that entry is truthy and [values[0]] otherwise (an entry that is
    missing, 0 or [NaN]); in particular an entry 0 resolves to
    [values[0]].  Both generations of the code. *)
Theorem getInpoint_getOutpoint_fallback (v0 : number) (rest : list number) :
  let values := v0 :: rest in
  (forall this : PushIn.PushIn,
     let i := evalState PushIn.getBreakpointIndex this in
     resolved_from values i (evalState (PushIn.getInpoint values) this) /\
     resolved_from values i (evalState (PushIn.getOutpoint values) this)) /\
  (forall getBreakpointIndex (this : PushInLayer.PushInLayer),
     let i := getBreakpointIndex (PushInLayer.scene this)
                (PushInLayer.breakpoints (PushInLayer.scene this)) in
     resolved_from values i
       (PushInLayer.getInpoint getBreakpointIndex this values) /\
     resolved_from values i
       (PushInLayer.getOutpoint getBreakpointIndex this values)) /\
  item values 0 = Some v0.
Proof.
  intros values. split; [|split].
  - intros this i. split; apply or_resolved.
  - intros gbi this i. split; apply or_resolved.
  - reflexivity.
Qed.

(** An entry 0 at breakpoint 1 falls back to the entry of breakpoint 0. *)
Lemma getInpoint_getOutpoint_fallback_witness :
  PushInLayer.getInpoint (fun _ _ => 1%Z)
    (Sample.layer 0 1 0 100 1100 8 true None None) [ofZ 100; ofZ 0]
  = Some (ofZ 100).
Proof.
  destruct (getInpoint_getOutpoint_fallback (ofZ 100) [ofZ 0]) as [_ [H _]].
  destruct (H (fun _ _ => 1%Z)
              (Sample.layer 0 1 0 100 1100 8 true None None)) as [[_ [F _]] _].
  apply F. reflexivity.
Defined.

(** The scenario of the spec: breakpoints [0, 768, 1440, 1920], viewport
    1000, inpoints [100, 150, 200, 250] resolve to 150 on a first call. *)
Example getInpoint_scenario :
  evalState (PushIn.getInpoint (map ofZ [100; 150; 200; 250]%Z))
            (Sample.js_pushin [] 0 1000)
  = Some (ofZ 150).
Proof. reflexivity. Qed.

(** The same read made by [getOutpoint] right after [getInpoint], as
    [getLayers] and [resetLayerParams] do, meets the reversed array. *)
Example getOutpoint_after_getInpoint :
  evalState (PushIn.getInpoint (map ofZ [100; 150; 200; 250]%Z) ;;
             PushIn.getOutpoint (map ofZ [1000; 2000; 3000; 4000]%Z))
            (Sample.js_pushin [] 0 1000)
  = Some (ofZ 4000).
Proof. reflexivity. Qed.

(* ===================================================================== *)
(** * The scale *)
(* ===================================================================== *)

(** The arithmetic of [getScaleValue] on finite operands. *)
Lemma scale_finite (os pos ip sp : Q) :
  numeq
    (max (add (Num os)
              (div (mul (sub (Num pos) (Num ip))
                        (div (min (Num sp) (ofZ 100)) (ofZ 100)))
                   (ofZ 100)))
         (ofZ 0))
    (Num (scale_formula os pos ip sp)).
Proof. simpl. unfold scale_formula. apply Qeq_refl. Qed.



(** The factor [min(speed, 100) / 100] of a finite speed. *)
Lemma speedFactor_finite (sp : Q) :
  exists f, div (min (Num sp) (ofZ 100)) (ofZ 100) = Num f /\
            f == Qmin sp 100 / 100 /\
            f <= 1 /\ (0 <= sp -> 0 <= f) /\ (sp < 0 -> f < 0).
Proof.
  eexists. split; [reflexivity|]. split; [apply Qeq_refl|].
  change (inject_Z 100) with 100.
  assert (P : 0 < 100) by reflexivity.
  repeat split.
  - apply Qle_shift_div_r; [exact P|]. rewrite Qmult_1_l. apply Q.le_min_r.
  - intros H. apply Qle_shift_div_l; [exact P|]. rewrite Qmult_0_l.
    apply Q.min_glb; [exact H | discriminate].
  - intros H. apply Qlt_shift_div_r; [exact P|]. rewrite Qmult_0_l.
    apply Qle_lt_trans with sp; [apply Q.le_min_l | exact H].
Qed.

(** C7, as stated, fails: the attribute value -50 is kept by [getSpeed]
    of either generation and its factor is -1/2, outside [0, 1]. *)
Lemma speedFactor_negative_speed :
  let layer := Sample.layer 0 1 0 0 1000 8 true (Some "-50"%string) None in
  let e := PushIn.mkElement (Some "-50"%string) None None in
  PushInLayer.getSpeed layer (PushInLayer.element layer) = ofZ (-50) /\
  PushIn.getSpeed e = ofZ (-50) /\
  ~ in_unit_interval (PushInLayer.speedFactor (ofZ (-50))) /\
  ~ in_unit_interval (PushIn.speedFactor (ofZ (-50))).
Proof.
  intros layer e. split; [reflexivity|]. split; [reflexivity|].
  split; intros [q [E [L _]]]; vm_compute in E; injection E as <-;
    apply L; reflexivity.
Qed.

(** C7, amended.  The scale computation caps the speed at 100 and does not
    raise it to 0: the factor applied to the scroll distance is
    [min(speed, 100) / 100], at most 1 for every speed, within [0, 1] for a
    speed that is not negative, and negative for a negative speed.  Both
    generations of the code.  The same holds of the two infinite speeds:
    the factor of [+Infinity] is 1 and that of [-Infinity] is
    [-Infinity]. *)
Theorem speedFactor_clamped_above (sp : Q) :
  PushInLayer.speedFactor (Num sp) = PushIn.speedFactor (Num sp) /\
  (exists f, PushInLayer.speedFactor (Num sp) = Num f /\
             f == Qmin sp 100 / 100 /\
             f <= 1 /\
             (0 <= sp -> in_unit_interval (Num f)) /\
             (sp < 0 -> f < 0)) /\
  numeq (PushInLayer.speedFactor PosInf) (ofZ 1) /\
  numeq (PushIn.speedFactor PosInf) (ofZ 1) /\
  PushInLayer.speedFactor NegInf = NegInf /\
  PushIn.speedFactor NegInf = NegInf.
Proof.
  split; [reflexivity|].
  split; [|repeat split].
  destruct (speedFactor_finite sp) as [f [E [F [U [L N]]]]].
  exists f. unfold PushInLayer.speedFactor. repeat split; auto.
  intros H. exists f. repeat split; auto.
Qed.

Lemma speedFactor_clamped_above_witness :
  in_unit_interval (PushInLayer.speedFactor (ofZ 50)) /\
  in_unit_interval (PushInLayer.speedFactor (ofZ 150)).
Proof.
  split.
  - destruct (speedFactor_clamped_above 50) as [_ [[f [E [_ [_ [H _]]]]] _]].
    change (ofZ 50) with (Num 50). rewrite E. apply H. discriminate.
  - destruct (speedFactor_clamped_above 150) as [_ [[f [E [_ [_ [H _]]]]] _]].
    change (ofZ 150) with (Num 150). rewrite E. apply H. discriminate.
Defined.

(* ===================================================================== *)
(** * The opacity: [PushInLayer.setLayerStyle] *)
(* ===================================================================== *)

Lemma lt_not_ge (x y : number) : lt x y = true -> ge x y = false.
Proof.
  unfold ge. destruct x as [a| | |], y as [b| | |]; simpl; intros H;
    try reflexivity; try discriminate.
  now apply negb_true_iff in H.
Qed.

Lemma lt_le_not_gt (x y z : number) :
  lt x y = true -> le y z = true -> gt x z = false.
Proof.
  unfold gt.
  destruct x as [a| | |], y as [b| | |], z as [c| | |]; simpl;
    intros H1 H2; try reflexivity; try discriminate.
  apply (lt_Num a b) in H1. apply Qle_bool_iff in H2.
  rewrite negb_false_iff. apply Qle_bool_iff.
  apply Qlt_le_weak. now apply Qlt_le_trans with b.
Qed.

Lemma le_gt_not_lt (x y z : number) :
  le x y = true -> gt z y = true -> lt z x = false.
Proof.
  unfold gt.
  destruct x as [a| | |], y as [b| | |], z as [c| | |]; simpl;
    intros H1 H2; try reflexivity; try discriminate.
  apply Qle_bool_iff in H1. apply (lt_Num b c) in H2.
  rewrite negb_false_iff. apply Qle_bool_iff.
  apply Qlt_le_weak. now apply Qle_lt_trans with b.
Qed.

Lemma unit_one : in_unit_interval (ofZ 1).
Proof. exists 1. repeat split; discriminate. Qed.

Lemma unit_zero : in_unit_interval (ofZ 0).
Proof. exists 0. repeat split; discriminate. Qed.

Lemma unit_min (a b : number) :
  in_unit_interval a -> in_unit_interval b -> in_unit_interval (min a b).
Proof.
  intros [x [-> [Lx Ux]]] [y [-> [Ly Uy]]].
  exists (Qmin x y). split; [reflexivity|]. split.
  - now apply Q.min_glb.
  - apply Qle_trans with x; [apply Q.le_min_l | exact Ux].
Qed.

Section LayerStyle.

Import PushInLayer.

Variable this : PushInLayer.

Let pos := scrollY (scene this).
Let isFirst := (index this =? 0)%Z.
Let isLast := (index this + 1 =? Z.of_nat (layers_length (scene this)))%Z.

(** The branch [setLayerStyle] takes decides the opacity it writes. *)
Lemma setLayerStyle_opacity :
  opacity (element (setLayerStyle this)) =
  Some (if isFirst && lt pos (inpoint (params this)) then ofZ 1
        else if isLast && gt pos (outpoint (params this)) then ofZ 1
        else if isActive this then
          if transitions (params this)
          then min (inpointDistance this) (outpointDistance this)
          else ofZ 1
        else ofZ 0).
Proof.
  unfold setLayerStyle. fold pos isFirst isLast.
  destruct (isFirst && lt pos (inpoint (params this))); [reflexivity|].
  destruct (isLast && gt pos (outpoint (params this))); [reflexivity|].
  destruct (isActive this); reflexivity.
Qed.

(** ... and the scale it writes, if any. *)
Lemma setLayerStyle_transform :
  transform (element (setLayerStyle this)) =
  if isFirst && lt pos (inpoint (params this)) then transform (element this)
  else if isLast && gt pos (outpoint (params this)) then
    if transitions (params this) then transform (element this)
    else Some (getScaleValue this this)
  else if isActive this then Some (getScaleValue this this)
  else transform (element this).
Proof.
  unfold setLayerStyle. fold pos isFirst isLast.
  destruct (isFirst && lt pos (inpoint (params this))); [reflexivity|].
  destruct (isLast && gt pos (outpoint (params this))).
  - destruct (transitions (params this)); reflexivity.
  - destruct (isActive this); reflexivity.
Qed.

(** With a finite scroll position at or past the inpoint and a positive
    finite window the ratio is a number of the unit interval, also for an
    inpoint at minus infinity. *)
Lemma inpointDistance_unit (p t : Q) :
  pos = Num p -> le (inpoint (params this)) pos = true ->
  transitionStart (params this) = Num t -> 0 < t ->
  in_unit_interval (inpointDistance this).
Proof.
  intros Hp Hi Ht Tpos. unfold inpointDistance.
  destruct (index this =? 0)%Z; [apply unit_one|].
  fold pos. rewrite Hp, Ht in *.
  apply clamp_ratio_unit_inf; [|exact Tpos].
  destruct (inpoint (params this)); try discriminate.
Qed.

Lemma outpointDistance_unit (p u : Q) :
  pos = Num p -> le pos (outpoint (params this)) = true ->
  transitionEnd (params this) = Num u -> 0 < u ->
  in_unit_interval (outpointDistance this).
Proof.
  intros Hp Ho Hu Upos. unfold outpointDistance.
  destruct (index this + 1 =? Z.of_nat (layers_length (scene this)))%Z;
    [apply unit_one|].
  fold pos. rewrite Hp, Hu in *.
  apply clamp_ratio_unit_inf; [|exact Upos].
  destruct (outpoint (params this)); try discriminate.
Qed.

(** With transitions enabled an active layer has the scroll position
    within its window. *)
Lemma isActive_bounds :
  transitions (params this) = true -> isActive this = true ->
  le (inpoint (params this)) pos = true /\
  le pos (outpoint (params this)) = true.
Proof.
  intros Ht. unfold isActive, ge. rewrite Ht. fold pos.
  intros H. now apply andb_prop in H.
Qed.

End LayerStyle.

(** C4.  A layer that is not the first, has transitions enabled and a
    window with inpoint <= outpoint gets opacity 0 at every scroll
    position strictly before its inpoint. *)
Theorem setLayerStyle_before_inpoint (this : PushInLayer.PushInLayer) :
  PushInLayer.index this <> 0%Z ->
  PushInLayer.transitions (PushInLayer.params this) = true ->
  le (PushInLayer.inpoint (PushInLayer.params this))
     (PushInLayer.outpoint (PushInLayer.params this)) = true ->
  lt (PushInLayer.scrollY (PushInLayer.scene this))
     (PushInLayer.inpoint (PushInLayer.params this)) = true ->
  PushInLayer.opacity (PushInLayer.element (PushInLayer.setLayerStyle this))
  = Some (ofZ 0).
Proof.
  intros Hidx Htr Hwin Hpos.
  rewrite setLayerStyle_opacity.
  apply Z.eqb_neq in Hidx. rewrite Hidx. simpl.
  rewrite (lt_le_not_gt _ _ _ Hpos Hwin), andb_false_r.
  unfold PushInLayer.isActive. rewrite Htr, (lt_not_ge _ _ Hpos).
  reflexivity.
Qed.

(** The second of two layers, window [900, 1900], at scroll position 300. *)
Lemma setLayerStyle_before_inpoint_witness :
  PushInLayer.opacity
    (PushInLayer.element
       (PushInLayer.setLayerStyle
          (Sample.layer 1 2 300 900 1900 8 true None None)))
  = Some (ofZ 0).
Proof.
  apply setLayerStyle_before_inpoint.
  - discriminate.
  - reflexivity.
  - reflexivity.
  - reflexivity.
Defined.

(** C5.  For the last layer, whenever the scroll position is past the
    outpoint, [setLayerStyle] writes opacity 1; and in the branch of the
    last layer (entered unless the branch of the first layer, tested
    before it, applies) it writes the scale of [getScaleValue] when
    transitions are disabled for the layer, and leaves the scale alone
    when they are enabled.  The branch of the last layer is the one
    entered in every scene of two layers or more, and for every window
    with inpoint <= outpoint. *)
Theorem setLayerStyle_last_layer (this : PushInLayer.PushInLayer) :
  (PushInLayer.index this + 1
   = Z.of_nat (PushInLayer.layers_length (PushInLayer.scene this)))%Z ->
  gt (PushInLayer.scrollY (PushInLayer.scene this))
     (PushInLayer.outpoint (PushInLayer.params this)) = true ->
  let after := PushInLayer.element (PushInLayer.setLayerStyle this) in
  let first_branch :=
    (PushInLayer.index this =? 0)%Z &&
    lt (PushInLayer.scrollY (PushInLayer.scene this))
       (PushInLayer.inpoint (PushInLayer.params this)) in
  PushInLayer.opacity after = Some (ofZ 1) /\
  (first_branch = false ->
   PushInLayer.transform after =
   if PushInLayer.transitions (PushInLayer.params this)
   then PushInLayer.transform (PushInLayer.element this)
   else Some (PushInLayer.getScaleValue this this)) /\
  (PushInLayer.index this <> 0%Z \/
   le (PushInLayer.inpoint (PushInLayer.params this))
      (PushInLayer.outpoint (PushInLayer.params this)) = true ->
   first_branch = false).
Proof.
  intros Hlast Hpos after first_branch. unfold after, first_branch.
  rewrite setLayerStyle_opacity, setLayerStyle_transform.
  apply Z.eqb_eq in Hlast. rewrite Hlast, Hpos. simpl.
  repeat split.
  - now destruct (_ && _).
  - now intros ->.
  - intros [Hn | Hwin].
    + apply Z.eqb_neq in Hn. now rewrite Hn.
    + rewrite (le_gt_not_lt _ _ _ Hwin Hpos). apply andb_false_r.
Qed.

(** The last of two layers, window [900, 1900], transitions disabled, at
    scroll position 2000: opacity 1 and the scale of that position. *)
Lemma setLayerStyle_last_layer_witness :
  let this := Sample.layer 1 2 2000 900 1900 8 false None None in
  let after := PushInLayer.element (PushInLayer.setLayerStyle this) in
  PushInLayer.opacity after = Some (ofZ 1) /\
  PushInLayer.transform after = Some (PushInLayer.getScaleValue this this).
Proof.
  intros this after.
  destruct (setLayerStyle_last_layer this eq_refl eq_refl) as [Ho [Ht Hb]].
  split; [exact Ho | exact (Ht (Hb (or_intror eq_refl)))].
Defined.

(** The branches are tested in order.  In a scene of one layer whose
    window is inverted (inpoint 500, outpoint 100), at scroll position 300
    the branch of the first layer runs and the branch of the last layer is
    not entered: the opacity is 1 and no scale is written. *)
Example setLayerStyle_single_layer_inverted_window :
  let this := Sample.layer 0 1 300 500 100 8 false None None in
  let after := PushInLayer.setLayerStyle this in
  (PushInLayer.index this =? 0)%Z &&
  lt (PushInLayer.scrollY (PushInLayer.scene this))
     (PushInLayer.inpoint (PushInLayer.params this)) = true /\
  PushInLayer.opacity (PushInLayer.element after) = Some (ofZ 1) /\
  PushInLayer.transform (PushInLayer.element after) = None.
Proof. intros this after. repeat split. Qed.

(* ===================================================================== *)
(** * The opacity: [PushIn.setLayerStyle] *)
(* ===================================================================== *)

Section LayerStyleJS.

Import PushIn.

Variables (this : PushIn) (layer : Layer).

Let isFirst := (index layer =? 0)%Z.
Let isLast := (index layer + 1 =? Z.of_nat (List.length (layers this)))%Z.
Let inp := toNumber (inpoint (params layer)).
Let outp := toNumber (outpoint (params layer)).

Lemma js_setLayerStyle_opacity :
  opacity (elem (setLayerStyle this layer)) =
  Some (if isFirst && lt (scrollPos this) inp then ofZ 1
        else if isLast && gt (scrollPos this) outp then ofZ 1
        else if isActive this layer then
          min (inpointDistance this layer) (outpointDistance this layer)
        else ofZ 0).
Proof.
  unfold setLayerStyle. fold isFirst isLast inp outp.
  destruct (isFirst && lt (scrollPos this) inp); [reflexivity|].
  destruct (isLast && gt (scrollPos this) outp); [reflexivity|].
  destruct (isActive this layer); reflexivity.
Qed.

Lemma js_isActive_bounds :
  isActive this layer = true ->
  le inp (scrollPos this) = true /\ le (scrollPos this) outp = true.
Proof.
  unfold isActive, ge. fold inp outp.
  intros H. now apply andb_prop in H.
Qed.

Lemma js_distances_unit (p t : Q) :
  scrollPos this = Num p ->
  le inp (scrollPos this) = true -> le (scrollPos this) outp = true ->
  transitionLength this = Num t -> 0 < t ->
  in_unit_interval (inpointDistance this layer) /\
  in_unit_interval (outpointDistance this layer).
Proof.
  intros Hp Hi Ho Ht Tpos.
  unfold inpointDistance, outpointDistance. fold inp outp.
  rewrite Hp, Ht in *. split.
  - destruct (index layer =? 0)%Z; [apply unit_one|].
    apply clamp_ratio_unit_inf; [|exact Tpos].
    destruct inp; try discriminate.
  - destruct (index layer + 1 =? Z.of_nat (List.length (layers this)))%Z;
      [apply unit_one|].
    apply clamp_ratio_unit_inf; [|exact Tpos].
    destruct outp; try discriminate.
Qed.

End LayerStyleJS.

(** A number that is positive and below infinity is a positive rational. *)
Lemma positive_finite (x : number) :
  lt (ofZ 0) x = true -> lt x PosInf = true -> exists t, x = Num t /\ 0 < t.
Proof.
  destruct x as [t| | |]; try discriminate.
  intros H _. exists t. split; [reflexivity | now apply lt_Num].
Qed.

(** A scroll position that is compared with success and is not infinite is
    a rational. *)
Lemma le_finite_right (x y : number) :
  le x y = true -> y <> PosInf -> y <> NegInf -> exists p, y = Num p.
Proof.
  destruct y as [p| | |]; intros H H1 H2.
  - now exists p.
  - destruct x; discriminate.
  - now destruct H1.
  - now destruct H2.
Qed.

(** C8, as stated, fails on infinite values.  A transition-start
    attribute of 401 digits parses to [Infinity], which is strictly
    positive; with an inpoint parsed from a negative number of that size,
    [-Infinity], the ratio [Infinity / Infinity] makes the opacity [NaN]
    for a layer inside its window.  And with finite windows, a scroll
    position that is itself infinite and equal to inpoint and outpoint
    gives the distance [Infinity - Infinity], and [NaN] again. *)
Lemma setLayerStyle_opacity_infinite :
  let huge := Sample.powerOfTen 400 in
  let layer0 :=
    PushInLayer.mkPushInLayer (PushInLayer.mkHTMLElement None None None)
      1 (Sample.scene 3 1000) None
      (PushInLayer.mkLayerParams NaN NaN NaN NaN true NaN NaN) (ofZ 1)
      (PushInLayer.mkLayerRef [parseInt (String "-" huge)] [ofZ 1900]
         (ofZ 8)) in
  let attrs :=
    PushInLayerSettings.mkTransitionAttributes None (Some huge) None in
  let this :=
    PushInLayerSettings.setLayerParams (ofZ 200) (fun _ _ => 0%Z)
      layer0 attrs in
  let that :=
    PushInLayer.mkPushInLayer (PushInLayer.mkHTMLElement None None None)
      1 (PushInLayer.mkPushInScene 3 PosInf [ofZ 0]) None
      (PushInLayer.mkLayerParams NaN PosInf PosInf (ofZ 8) true
         (ofZ 200) (ofZ 200)) (ofZ 1)
      (PushInLayer.mkLayerRef [PosInf] [PosInf] (ofZ 8)) in
  (PushInLayer.transitionStart (PushInLayer.params this) = PosInf /\
   PushInLayer.inpoint (PushInLayer.params this) = NegInf /\
   lt (ofZ 0) (PushInLayer.transitionStart (PushInLayer.params this)) = true /\
   lt (ofZ 0) (PushInLayer.transitionEnd (PushInLayer.params this)) = true /\
   PushInLayer.opacity (PushInLayer.element (PushInLayer.setLayerStyle this))
   = Some NaN) /\
  (lt (ofZ 0) (PushInLayer.transitionStart (PushInLayer.params that)) = true /\
   lt (ofZ 0) (PushInLayer.transitionEnd (PushInLayer.params that)) = true /\
   PushInLayer.opacity (PushInLayer.element (PushInLayer.setLayerStyle that))
   = Some NaN) /\
  ~ in_unit_interval NaN.
Proof.
  intros huge layer0 attrs this that.
  split; [repeat split; vm_compute; reflexivity|].
  split; [repeat split|].
  intros [q [E _]]. discriminate.
Qed.

(** C8, amended.  When the transition windows are strictly positive and
    finite ([transitionStart] and [transitionEnd] of the layer; the
    scene-wide [transitionLength] in [src/pushin.js]), the opacity
    [setLayerStyle] writes is a number of [0, 1] at every scroll position
    that is not infinite and for every layer ordinal, whatever the inpoint
    and the outpoint are ([NaN] and the infinities included): it is 0, 1,
    or the minimum of the two ratios [inpointDistance] and
    [outpointDistance], each within [0, 1]. *)
Theorem setLayerStyle_opacity_unit :
  (forall this : PushInLayer.PushInLayer,
     let p := PushInLayer.params this in
     let pos := PushInLayer.scrollY (PushInLayer.scene this) in
     lt (ofZ 0) (PushInLayer.transitionStart p) = true ->
     lt (PushInLayer.transitionStart p) PosInf = true ->
     lt (ofZ 0) (PushInLayer.transitionEnd p) = true ->
     lt (PushInLayer.transitionEnd p) PosInf = true ->
     pos <> PosInf -> pos <> NegInf ->
     exists o,
       PushInLayer.opacity (PushInLayer.element (PushInLayer.setLayerStyle this))
       = Some o /\
       in_unit_interval o /\
       (o = ofZ 0 \/ o = ofZ 1 \/
        (o = min (PushInLayer.inpointDistance this)
                 (PushInLayer.outpointDistance this) /\
         in_unit_interval (PushInLayer.inpointDistance this) /\
         in_unit_interval (PushInLayer.outpointDistance this)))) /\
  (forall (this : PushIn.PushIn) (layer : PushIn.Layer),
     lt (ofZ 0) (PushIn.transitionLength this) = true ->
     lt (PushIn.transitionLength this) PosInf = true ->
     PushIn.scrollPos this <> PosInf -> PushIn.scrollPos this <> NegInf ->
     exists o,
       PushIn.opacity (PushIn.elem (PushIn.setLayerStyle this layer)) = Some o /\
       in_unit_interval o /\
       (o = ofZ 0 \/ o = ofZ 1 \/
        (o = min (PushIn.inpointDistance this layer)
                 (PushIn.outpointDistance this layer) /\
         in_unit_interval (PushIn.inpointDistance this layer) /\
         in_unit_interval (PushIn.outpointDistance this layer)))).
Proof.
  split.
  - intros this p pos Hs Hs' He He' Hpos Hneg. unfold p, pos in *.
    rewrite setLayerStyle_opacity.
    eexists. split; [reflexivity|].
    destruct (_ && _); [split; [apply unit_one | auto]|].
    destruct (_ && _); [split; [apply unit_one | auto]|].
    destruct (PushInLayer.isActive this) eqn:A;
      [|split; [apply unit_zero | auto]].
    destruct (PushInLayer.transitions (PushInLayer.params this)) eqn:T;
      [|split; [apply unit_one | auto]].
    destruct (isActive_bounds this T A) as [Hi Ho].
    destruct (le_finite_right _ _ Hi Hpos Hneg) as [q Hq].
    destruct (positive_finite _ Hs Hs') as [t [Ht Tpos]].
    destruct (positive_finite _ He He') as [u [Hu Upos]].
    pose proof (inpointDistance_unit this q t Hq Hi Ht Tpos) as Ui.
    pose proof (outpointDistance_unit this q u Hq Ho Hu Upos) as Uo.
    split; [now apply unit_min | right; right; auto].
  - intros this layer Ht Ht' Hpos Hneg. rewrite js_setLayerStyle_opacity.
    eexists. split; [reflexivity|].
    destruct (_ && _); [split; [apply unit_one | auto]|].
    destruct (_ && _); [split; [apply unit_one | auto]|].
    destruct (PushIn.isActive this layer) eqn:A;
      [|split; [apply unit_zero | auto]].
    destruct (js_isActive_bounds this layer A) as [Hi Ho].
    destruct (le_finite_right _ _ Hi Hpos Hneg) as [q Hq].
    destruct (positive_finite _ Ht Ht') as [t [Et Tpos]].
    destruct (js_distances_unit this layer q t Hq Hi Ho Et Tpos) as [Ui Uo].
    split; [now apply unit_min | right; right; auto].
Qed.

(** A middle layer half way through its fade-in: window [900, 1900] at
    scroll position 1000 with a transition window of 200 pixels. *)
Lemma setLayerStyle_opacity_unit_witness :
  let this := Sample.layer 1 3 1000 900 1900 8 true None None in
  exists o,
    PushInLayer.opacity (PushInLayer.element (PushInLayer.setLayerStyle this))
    = Some o /\ in_unit_interval o.
Proof.
  intros this.
  destruct setLayerStyle_opacity_unit as [H _].
  destruct (H this eq_refl eq_refl eq_refl eq_refl
              ltac:(discriminate) ltac:(discriminate)) as [o [Ho [Hu _]]].
  exists o. split; [exact Ho | exact Hu].
Defined.

Example setLayerStyle_half_faded :
  let this := Sample.layer 1 3 1000 900 1900 8 true None None in
  exists o,
    PushInLayer.opacity (PushInLayer.element (PushInLayer.setLayerStyle this))
    = Some (Num o) /\ o == 1 # 2.
Proof. eexists. split; reflexivity. Qed.

(* ===================================================================== *)
(** * The speed: [getSpeed] *)
(* ===================================================================== *)

Lemma truthy_zero (q : Q) : q == 0 -> truthy (Some (Num q)) = false.
Proof. intros H. simpl. apply Qeq_bool_iff in H. now rewrite H. Qed.

(** A string [parseInt] reads a number from is not empty. *)
Lemma parseInt_truthyString (s : string) :
  parseInt s <> NaN -> truthyString (Some s) = true.
Proof. destruct s; [intros H; now destruct H | reflexivity]. Qed.

(** C9, as stated, fails on an attribute that is present but empty, for
    the TypeScript class: [data-pushin-speed] with the empty value parses
    to [NaN], yet [getSpeed] takes it for absent and returns the speed 50
    of the programmatic options. *)
Lemma getSpeed_empty_attribute :
  let this :=
    Sample.layer 0 1 0 0 1000 8 true
      (Some EmptyString) (Some (Sample.options_speed 50)) in
  let e := PushInLayer.element this in
  PushInLayer.pushinSpeed e = Some EmptyString /\
  parseInt EmptyString = NaN /\
  PushInLayer.getSpeed this e = ofZ 50 /\
  ~ numeq (PushInLayer.getSpeed this e) (ofZ 8).
Proof.
  intros this e. repeat split. intros H. vm_compute in H. discriminate.
Qed.

(** C9, amended.  When the speed attribute is present with a value that is
    not empty and parses to not-a-number (such as "abc"), [getSpeed]
    returns the default speed 8, in both generations of the code;
    [getSpeed] of [src/pushin.js] does so for the empty value too, while
    the TypeScript class takes an empty value for an absent attribute (the
    programmatic speed applies when truthy, the default 8 otherwise). *)
Theorem getSpeed_not_a_number (s : string) :
  parseInt s = NaN ->
  (forall e : PushIn.Element,
     PushIn.pushinSpeed e = Some s -> PushIn.getSpeed e = ofZ 8) /\
  (forall (this : PushInLayer.PushInLayer) (e : PushInLayer.HTMLElement),
     PushInLayer.pushinSpeed e = Some s ->
     (s <> EmptyString -> PushInLayer.getSpeed this e = ofZ 8) /\
     (s = EmptyString ->
      PushInLayer.getSpeed this e =
      toNumber (or (option_map PushInLayer.opt_speed (PushInLayer.options this))
                   (Some (ofZ 8))))).
Proof.
  intros Hnan. split.
  - intros e He. unfold PushIn.getSpeed. rewrite He, Hnan. reflexivity.
  - intros this e He. unfold PushInLayer.getSpeed. rewrite He. split.
    + intros Hs. destruct s as [|c r]; [now destruct Hs|].
      simpl truthyString. cbv iota. rewrite Hnan. reflexivity.
    + intros ->. simpl truthyString. cbv iota.
      unfold or at 2.
      destruct (truthy (option_map _ _)) eqn:T; [|reflexivity].
      unfold or. rewrite T. reflexivity.
Qed.

(** The attribute value "abc" of the tests. *)
Lemma getSpeed_not_a_number_witness :
  PushIn.getSpeed (PushIn.mkElement (Some "abc"%string) None None) = ofZ 8 /\
  (let this :=
     Sample.layer 2 3 0 1800 2800 8 true
       (Some "abc"%string) (Some (Sample.options_speed 50)) in
   PushInLayer.getSpeed this (PushInLayer.element this) = ofZ 8).
Proof.
  destruct (getSpeed_not_a_number "abc" eq_refl) as [Hjs Hts].
  split.
  - apply Hjs. reflexivity.
  - intros this.
    destruct (Hts this (PushInLayer.element this) eq_refl) as [H _].
    apply H. discriminate.
Defined.

(** C10.  A configured speed of 0 is treated as unset, [getSpeed]
    returning the default 8: for an attribute value that parses to 0 (such
    as "0"), in both generations of the code and whatever the
    programmatic options; and for a programmatic option [speed: 0] when
    the attribute is not set.  A layer with nothing configured gets the
    same 8. *)
Theorem getSpeed_zero_is_unset :
  (forall (e : PushIn.Element) (s : string) (q : Q),
     PushIn.pushinSpeed e = Some s -> parseInt s = Num q -> q == 0 ->
     PushIn.getSpeed e = ofZ 8) /\
  (forall (this : PushInLayer.PushInLayer) (e : PushInLayer.HTMLElement)
          (s : string) (q : Q),
     PushInLayer.pushinSpeed e = Some s -> parseInt s = Num q -> q == 0 ->
     PushInLayer.getSpeed this e = ofZ 8) /\
  (forall (this : PushInLayer.PushInLayer) (e : PushInLayer.HTMLElement)
          (o : PushInLayer.LayerOptions) (q : Q),
     truthyString (PushInLayer.pushinSpeed e) = false ->
     PushInLayer.options this = Some o -> PushInLayer.opt_speed o = Num q ->
     q == 0 ->
     PushInLayer.getSpeed this e = ofZ 8) /\
  (forall e : PushIn.Element,
     PushIn.pushinSpeed e = None -> PushIn.getSpeed e = ofZ 8) /\
  (forall (this : PushInLayer.PushInLayer) (e : PushInLayer.HTMLElement),
     truthyString (PushInLayer.pushinSpeed e) = false ->
     PushInLayer.options this = None ->
     PushInLayer.getSpeed this e = ofZ 8) /\
  parseInt "0" = ofZ 0.
Proof.
  repeat split.
  - intros e s q He Hs Hq. unfold PushIn.getSpeed. rewrite He, Hs.
    simpl isNaN. cbv iota zeta. unfold or. now rewrite (truthy_zero q Hq).
  - intros this e s q He Hs Hq. unfold PushInLayer.getSpeed.
    rewrite He, (parseInt_truthyString s) by congruence.
    rewrite Hs. simpl isNaN. cbv iota zeta.
    unfold or. now rewrite (truthy_zero q Hq).
  - intros this e o q He Ho Hs Hq. unfold PushInLayer.getSpeed.
    rewrite He, Ho. simpl option_map. rewrite Hs, (truthy_zero q Hq).
    reflexivity.
  - intros e He. unfold PushIn.getSpeed. rewrite He. reflexivity.
  - intros this e He Ho. unfold PushInLayer.getSpeed.
    rewrite He, Ho. reflexivity.
Qed.

(** The attribute value "0", and the option [speed: 0] without attribute. *)
Lemma getSpeed_zero_is_unset_witness :
  PushIn.getSpeed (PushIn.mkElement (Some "0"%string) None None) = ofZ 8 /\
  (let this :=
     Sample.layer 0 1 0 0 1000 8 true
       (Some "0"%string) (Some (Sample.options_speed 50)) in
   PushInLayer.getSpeed this (PushInLayer.element this) = ofZ 8) /\
  (let this :=
     Sample.layer 0 1 0 0 1000 8 true None (Some (Sample.options_speed 0)) in
   PushInLayer.getSpeed this (PushInLayer.element this) = ofZ 8).
Proof.
  destruct getSpeed_zero_is_unset as [Hjs [Hattr [Hopt _]]].
  split; [|split].
  - apply (Hjs _ "0"%string 0); reflexivity.
  - intros this.
    apply (Hattr this _ "0"%string 0); reflexivity.
  - intros this.
    apply (Hopt this _ (Sample.options_speed 0) 0); reflexivity.
Defined.

(* ===================================================================== *)
(** * More on the breakpoints of [src/pushin.js] *)
(* ===================================================================== *)

Lemma item_in_range {A : Type} (a : list A) (i : Z) :
  (0 <= i < Z.of_nat (List.length a))%Z -> exists x, item a i = Some x.
Proof.
  intros H. unfold item.
  destruct (i <? 0)%Z eqn:E; [apply Z.ltb_lt in E; lia|].
  destruct (nth_error a (Z.to_nat i)) as [x|] eqn:N; [now exists x|].
  apply nth_error_None in N. lia.
Qed.

Lemma item_singleton {A : Type} (v : A) (i : Z) :
  item [v] i = Some v \/ item [v] i = None.
Proof.
  unfold item. destruct (i <? 0)%Z; [now right|].
  destruct (Z.to_nat i) as [|[|k]]; simpl; auto.
Qed.

Lemma or_singleton (v : number) (i : Z) :
  or (item [v] i) (item [v] 0) = Some v.
Proof.
  unfold or. destruct (item_singleton v i) as [-> | ->].
  - now destruct (truthy (Some v)).
  - reflexivity.
Qed.

(** X1.  Whenever [this.breakpoints] is not empty, [getBreakpointIndex]
    returns an index of the array, at which an entry is stored: never a
    negative number, never one past the end, on whichever call and for
    whichever viewport width ([NaN] included). *)
Theorem getBreakpointIndex_in_range (this : PushIn.PushIn) :
  PushIn.breakpoints this <> [] ->
  let i := evalState PushIn.getBreakpointIndex this in
  (0 <= i < Z.of_nat (List.length (PushIn.breakpoints this)))%Z /\
  exists b, item (PushIn.breakpoints this) i = Some b.
Proof.
  intros Hne i.
  assert (R : (0 <= i < Z.of_nat (List.length (PushIn.breakpoints this)))%Z).
  { unfold i. rewrite getBreakpointIndex_value. cbv zeta.
    pose proof (findIndex_range
                  (fun bp => le bp (PushIn.innerWidth this))
                  (rev (PushIn.breakpoints this))) as F.
    rewrite length_rev in *.
    destruct (PushIn.breakpoints this) as [|b r]; [now destruct Hne|].
    simpl List.length in *.
    destruct (_ =? -1)%Z eqn:E; [lia | apply Z.eqb_neq in E; lia]. }
  split; [exact R | now apply item_in_range].
Qed.

Lemma getBreakpointIndex_in_range_witness :
  let this := Sample.js_pushin [] 0 1000 in
  exists b,
    item (PushIn.breakpoints this)
         (evalState PushIn.getBreakpointIndex this) = Some b.
Proof.
  intros this.
  assert (Hne : PushIn.breakpoints this <> []) by discriminate.
  exact (proj2 (getBreakpointIndex_in_range this Hne)).
Defined.

Lemma getBreakpointIndex_twice_state (this : PushIn.PushIn) :
  execState (PushIn.getBreakpointIndex ;; PushIn.getBreakpointIndex) this
  = this.
Proof.
  unfold execState. simpl. unfold PushIn.set_breakpoints. simpl.
  rewrite rev_involutive. now destruct this.
Qed.

Lemma nthCall_skip_two (n : nat) (this : PushIn.PushIn) :
  evalState (PushInStart.nthCall (S (S n))) this =
  evalState (PushInStart.nthCall n) this.
Proof.
  change (evalState (PushInStart.nthCall (S (S n))) this)
    with (evalState (PushInStart.nthCall n)
            (execState (PushIn.getBreakpointIndex ;;
                        PushIn.getBreakpointIndex) this)).
  now rewrite getBreakpointIndex_twice_state.
Qed.

(** X2.  Two calls of [getBreakpointIndex] in a row leave the object as it
    was (the two reversals of [this.breakpoints] cancel), so the results of
    the calls repeat with period two: call [n + 3] returns what call
    [n + 1] returned. *)
Theorem getBreakpointIndex_period_two (this : PushIn.PushIn) (n : nat) :
  execState (PushIn.getBreakpointIndex ;; PushIn.getBreakpointIndex) this
  = this /\
  evalState (PushInStart.nthCall (S (S n))) this =
  evalState (PushInStart.nthCall n) this.
Proof.
  split; [apply getBreakpointIndex_twice_state | apply nthCall_skip_two].
Qed.

Lemma nthCall_even (n : nat) (this : PushIn.PushIn) :
  evalState (PushInStart.nthCall (2 * n)) this =
  evalState PushIn.getBreakpointIndex this.
Proof.
  induction n as [|n IH]; [reflexivity|].
  replace (2 * S n)%nat with (S (S (2 * n))) by lia.
  now rewrite nthCall_skip_two.
Qed.

Lemma nthCall_odd (n : nat) (this : PushIn.PushIn) :
  evalState (PushInStart.nthCall (2 * n + 1)) this =
  evalState (PushIn.getBreakpointIndex ;; PushIn.getBreakpointIndex) this.
Proof.
  induction n as [|n IH]; [reflexivity|].
  replace (2 * S n + 1)%nat with (S (S (2 * n + 1))) by lia.
  now rewrite nthCall_skip_two.
Qed.

(** X3.  On an object whose breakpoints are in their configured order,
    whatever that order is: if some breakpoint is at most the viewport
    width, [getBreakpointIndex] returns the largest index holding such a
    breakpoint; if none is (a width below every breakpoint, or [NaN]), it
    returns 0. *)
Theorem getBreakpointIndex_configured_order (this : PushIn.PushIn) :
  let B := PushIn.breakpoints this in
  let W := PushIn.innerWidth this in
  let i := evalState PushIn.getBreakpointIndex this in
  ((exists b, In b B /\ le b W = true) -> largest_index_le B W i) /\
  ((forall b, In b B -> le b W = false) -> i = 0%Z).
Proof.
  intros B W i. split.
  - apply getBreakpointIndex_first_call.
  - intros Hnone. unfold i. rewrite getBreakpointIndex_value. cbv zeta.
    destruct (findIndex _ _ =? -1)%Z eqn:E; [reflexivity|].
    apply Z.eqb_neq in E.
    pose proof (findIndex_range (fun bp => le bp (PushIn.innerWidth this))
                  (rev (PushIn.breakpoints this))) as R.
    remember (findIndex _ _) as k eqn:Hk.
    assert (Hk' : k = Z.of_nat (Z.to_nat k)) by lia.
    rewrite Hk' in Hk. symmetry in Hk.
    destruct (findIndex_hit _ _ _ Hk) as [[x [Hx Px]] _].
    apply nth_error_In, in_rev in Hx.
    pose proof (Hnone x Hx) as Nx. unfold W in Nx. congruence.
Qed.

Lemma getBreakpointIndex_configured_order_witness :
  largest_index_le (map ofZ [0; 768; 1440; 1920]%Z) (ofZ 1500) 2 /\
  evalState PushIn.getBreakpointIndex
    (PushIn.set_breakpoints (map ofZ [768; 1440]%Z)
       (Sample.js_pushin [] 0 500)) = 0%Z.
Proof.
  split.
  - apply (proj1 (getBreakpointIndex_configured_order
                    (Sample.js_pushin [] 0 1500))).
    exists (ofZ 0). split; [left; reflexivity | reflexivity].
  - apply (proj2 (getBreakpointIndex_configured_order
                    (PushIn.set_breakpoints (map ofZ [768; 1440]%Z)
                       (Sample.js_pushin [] 0 500)))).
    intros b [<-|[<-|[]]]; reflexivity.
Defined.

(** X4.  On an object whose breakpoints start with 0, in a viewport whose
    width is not negative, the calls of [getBreakpointIndex] alternate:
    the odd-numbered calls (first, third, ...) return the largest index
    whose breakpoint is at most the width, the even-numbered calls return
    the last index of the array, whatever the width. *)
Theorem getBreakpointIndex_alternates
  (this : PushIn.PushIn) (r : list number) (w : Q) (n : nat) :
  PushIn.breakpoints this = ofZ 0 :: r ->
  PushIn.innerWidth this = Num w -> 0 <= w ->
  largest_index_le (PushIn.breakpoints this) (PushIn.innerWidth this)
    (evalState (PushInStart.nthCall (2 * n)) this) /\
  evalState (PushInStart.nthCall (2 * n + 1)) this =
  (Z.of_nat (List.length (PushIn.breakpoints this)) - 1)%Z.
Proof.
  intros HB HW Hw. rewrite nthCall_even, nthCall_odd. split.
  - apply getBreakpointIndex_first_call.
    exists (ofZ 0). split; [rewrite HB; now left|].
    rewrite HW. apply le_Num. exact Hw.
  - now apply (getBreakpointIndex_second_call this r w).
Qed.

Lemma getBreakpointIndex_alternates_witness :
  let this := Sample.js_pushin [] 0 1000 in
  evalState (PushInStart.nthCall 3) this = 3%Z.
Proof.
  intros this.
  exact (proj2 (getBreakpointIndex_alternates this
                  (map ofZ [768; 1440; 1920]%Z) (inject_Z 1000) 1
                  eq_refl eq_refl ltac:(discriminate))).
Defined.

Lemma split_not_empty (s : string) : JSString.split s <> [].
Proof.
  destruct s as [|c r]; simpl; [discriminate|].
  destruct (JSString.isComma c); [discriminate|].
  destruct (JSString.split r); discriminate.
Qed.

Lemma parseList_not_empty (s : string) : JSString.parseList s <> [].
Proof.
  unfold JSString.parseList. pose proof (split_not_empty s) as H.
  destruct (JSString.split s); [now destruct H | discriminate].
Qed.

Lemma setBreakpoints_run
  (scene : PushInStart.SceneElement) (this : PushIn.PushIn) :
  execState (PushInStart.setBreakpoints scene) this =
  PushIn.set_breakpoints
    (ofZ 0 ::
     match PushInStart.scene_pushinBreakpoints scene with
     | Some s => if truthyString (Some s) then JSString.parseList s
                 else map ofZ [768; 1440; 1920]%Z
     | None => map ofZ [768; 1440; 1920]%Z
     end) this.
Proof. reflexivity. Qed.

(** X5.  [setBreakpoints] always stores a list that starts with 0 and has
    at least one more entry: the defaults 768, 1440, 1920 when the scene
    has no [data-pushin-breakpoints] or an empty one, the parsed fields of
    the attribute otherwise.  It touches nothing else, and the first
    [getBreakpointIndex] after it returns, for every viewport width that
    is not negative, the largest index whose breakpoint is at most the
    width. *)
Theorem setBreakpoints_zero_first
  (scene : PushInStart.SceneElement) (this : PushIn.PushIn) :
  let after := execState (PushInStart.setBreakpoints scene) this in
  (exists r, PushIn.breakpoints after = ofZ 0 :: r /\ r <> []) /\
  (truthyString (PushInStart.scene_pushinBreakpoints scene) = false ->
   PushIn.breakpoints after = map ofZ [0; 768; 1440; 1920]%Z) /\
  (forall s, PushInStart.scene_pushinBreakpoints scene = Some s ->
             s <> EmptyString ->
             PushIn.breakpoints after = ofZ 0 :: JSString.parseList s) /\
  PushIn.set_breakpoints (PushIn.breakpoints this) after = this /\
  (forall w, PushIn.innerWidth this = Num w -> 0 <= w ->
     largest_index_le (PushIn.breakpoints after) (Num w)
       (evalState (PushInStart.setBreakpoints scene ;;
                   PushIn.getBreakpointIndex) this)).
Proof.
  intros after.
  assert (Hs : forall s, s <> EmptyString -> truthyString (Some s) = true).
  { intros [|c r] H; [now destruct H | reflexivity]. }
  assert (E : exists r, PushIn.breakpoints after = ofZ 0 :: r /\ r <> []).
  { unfold after. rewrite setBreakpoints_run.
    destruct (PushInStart.scene_pushinBreakpoints scene) as [s|].
    - destruct (truthyString (Some s)).
      + eexists. split; [reflexivity | apply parseList_not_empty].
      + eexists. split; [reflexivity | discriminate].
    - eexists. split; [reflexivity | discriminate]. }
  split; [exact E|]. split; [|split; [|split]].
  - intros F. unfold after. rewrite setBreakpoints_run.
    destruct (PushInStart.scene_pushinBreakpoints scene) as [s|];
      [|reflexivity].
    now rewrite F.
  - intros s Hsome Hne. unfold after. rewrite setBreakpoints_run.
    now rewrite Hsome, (Hs s Hne).
  - unfold after. rewrite setBreakpoints_run. now destruct this.
  - intros w HW Hw. destruct E as [r [HB _]].
    change (evalState (PushInStart.setBreakpoints scene ;;
                       PushIn.getBreakpointIndex) this)
      with (evalState PushIn.getBreakpointIndex after).
    assert (HW' : PushIn.innerWidth after = Num w) by exact HW.
    rewrite <- HW'. apply getBreakpointIndex_first_call.
    exists (ofZ 0). split; [rewrite HB; now left|].
    rewrite HW'. apply le_Num. exact Hw.
Qed.

(** The attribute "600, 1200" in a viewport 700 pixels wide. *)
Lemma setBreakpoints_zero_first_witness :
  let scene :=
    PushInStart.mkSceneElement (ofZ 0) (Some "600, 1200"%string) None in
  let this := Sample.js_pushin [] 0 700 in
  PushIn.breakpoints (execState (PushInStart.setBreakpoints scene) this)
  = map ofZ [0; 600; 1200]%Z /\
  largest_index_le (map ofZ [0; 600; 1200]%Z) (ofZ 700)
    (evalState (PushInStart.setBreakpoints scene ;;
                PushIn.getBreakpointIndex) this).
Proof.
  intros scene this.
  destruct (setBreakpoints_zero_first scene this) as [_ [_ [H [_ G]]]].
  split.
  - apply (H "600, 1200"%string); [reflexivity | discriminate].
  - apply (G (inject_Z 700)); [reflexivity | discriminate].
Defined.

(** X6.  A layer configured with a single inpoint (or outpoint) resolves
    to it at every breakpoint: [getInpoint] and [getOutpoint] return the
    one entry of a one-entry list whatever index the breakpoint search
    returns, in both generations of the code (for [src/pushin.js]: on
    every call, whatever state the breakpoints are in). *)
Theorem single_value_resolves (v : number) :
  (forall this : PushIn.PushIn,
     evalState (PushIn.getInpoint [v]) this = Some v /\
     evalState (PushIn.getOutpoint [v]) this = Some v) /\
  (forall getBreakpointIndex (this : PushInLayer.PushInLayer),
     PushInLayer.getInpoint getBreakpointIndex this [v] = Some v /\
     PushInLayer.getOutpoint getBreakpointIndex this [v] = Some v).
Proof.
  split.
  - intros this. split; apply or_singleton.
  - intros gbi this. split; apply or_singleton.
Qed.

(** X7.  With breakpoints that start with 0 and a viewport width that is
    not negative, [resetLayerParams] gives every layer an inpoint resolved
    at the largest index whose breakpoint is at most the width, but an
    outpoint resolved at the last index of the breakpoint list, whatever
    the width; the speed is read again from the element; the layer's
    element, index, original scale and [ref] lists, the number of layers
    and the breakpoints are left as they were. *)
Theorem resetLayerParams_resolution
  (this : PushIn.PushIn) (r : list number) (w : Q) :
  PushIn.breakpoints this = ofZ 0 :: r ->
  PushIn.innerWidth this = Num w -> 0 <= w ->
  let after := execState PushIn.resetLayerParams this in
  let last := (Z.of_nat (List.length (PushIn.breakpoints this)) - 1)%Z in
  PushIn.breakpoints after = PushIn.breakpoints this /\
  exists i,
    largest_index_le (PushIn.breakpoints this) (PushIn.innerWidth this) i /\
    Forall2
      (fun l l' =>
         PushIn.elem l' = PushIn.elem l /\
         PushIn.index l' = PushIn.index l /\
         PushIn.originalScale l' = PushIn.originalScale l /\
         PushIn.ref l' = PushIn.ref l /\
         PushIn.speed (PushIn.params l') = PushIn.getSpeed (PushIn.elem l) /\
         PushIn.inpoint (PushIn.params l') =
           or (item (PushIn.inpoints (PushIn.ref l)) i)
              (item (PushIn.inpoints (PushIn.ref l)) 0) /\
         PushIn.outpoint (PushIn.params l') =
           or (item (PushIn.outpoints (PushIn.ref l)) last)
              (item (PushIn.outpoints (PushIn.ref l)) 0))
      (PushIn.layers this) (PushIn.layers after).
Proof.
  intros HB HW Hw after last.
  unfold after. rewrite resetLayerParams_run.
  split; [reflexivity|].
  exists (evalState PushIn.getBreakpointIndex this). split.
  - apply getBreakpointIndex_first_call.
    exists (ofZ 0). split; [rewrite HB; now left|].
    rewrite HW. apply le_Num. exact Hw.
  - simpl PushIn.layers.
    pose proof (getBreakpointIndex_second_call this r w HB HW Hw) as E2.
    fold last in E2.
    induction (PushIn.layers this) as [|l ls IH]; constructor; [|exact IH].
    repeat split.
    change (PushIn.outpoint (PushIn.params (evalState (PushIn.resetLayer l) this)))
      with (or (item (PushIn.outpoints (PushIn.ref l))
                  (evalState (PushIn.getBreakpointIndex ;;
                              PushIn.getBreakpointIndex) this))
               (item (PushIn.outpoints (PushIn.ref l)) 0)).
    now rewrite E2.
Qed.

(** The default breakpoints in a viewport 1000 pixels wide. *)
Lemma resetLayerParams_resolution_witness :
  let this := Sample.js_pushin [Sample.js_layer 0 100 1100 8 None] 0 1000 in
  PushIn.breakpoints (execState PushIn.resetLayerParams this)
  = PushIn.breakpoints this.
Proof.
  intros this.
  exact (proj1 (resetLayerParams_resolution this
                  (map ofZ [768; 1440; 1920]%Z) (inject_Z 1000)
                  eq_refl eq_refl ltac:(discriminate))).
Defined.

(** The scenario of the spec, resized: the inpoint is that of breakpoint 1,
    the outpoint that of breakpoint 3. *)
Example resetLayerParams_scenario :
  let layer :=
    PushIn.mkLayer (PushIn.mkElement None None None) 0 (ofZ 1)
      (PushIn.mkRef (map ofZ [100; 150; 200; 250]%Z)
                    (map ofZ [1000; 2000; 3000; 4000]%Z))
      (PushIn.mkParams None None NaN) in
  map PushIn.params
    (PushIn.layers
       (execState PushIn.resetLayerParams (Sample.js_pushin [layer] 0 1000)))
  = [PushIn.mkParams (Some (ofZ 150)) (Some (ofZ 4000)) (ofZ 8)].
Proof. reflexivity. Qed.

(* ===================================================================== *)
(** * More on the speed and the scale *)
(* ===================================================================== *)

Lemma truthy_nonzero (q : Q) : ~ q == 0 -> truthy (Some (Num q)) = true.
Proof.
  intros H. simpl. destruct (Qeq_bool q 0) eqn:E; [|reflexivity].
  apply Qeq_bool_iff in E. now destruct H.
Qed.

(** [speed || 8] on a number that is not [NaN]. *)
Lemma or_default_speed (n : number) :
  n <> NaN ->
  let r := toNumber (or (Some n) (Some (ofZ 8))) in
  r <> NaN /\ ~ numeq r (ofZ 0) /\ (r = n \/ r = ofZ 8).
Proof.
  intros Hn r. unfold r, or.
  destruct (truthy (Some n)) eqn:T; simpl.
  - split; [exact Hn|]. split; [|now left].
    destruct n as [p| | |]; simpl; auto.
    intros Z. now rewrite (truthy_zero p Z) in T.
  - split; [discriminate|]. split; [discriminate | now right].
Qed.

(** X8.  [getSpeed] never returns [NaN] nor 0, whatever the attribute and
    the programmatic options hold, in both generations of the code.  It
    returns an infinity only when that is what the attribute parses to (a
    decimal number beyond the range of doubles) or, in the TypeScript
    class, what the option [speed] holds. *)
Theorem getSpeed_truthy :
  (forall e : PushIn.Element,
     let r := PushIn.getSpeed e in
     r <> NaN /\ ~ numeq r (ofZ 0) /\
     (r = PosInf \/ r = NegInf ->
      exists s, PushIn.pushinSpeed e = Some s /\ parseInt s = r)) /\
  (forall (this : PushInLayer.PushInLayer) (e : PushInLayer.HTMLElement),
     let r := PushInLayer.getSpeed this e in
     r <> NaN /\ ~ numeq r (ofZ 0) /\
     (r = PosInf \/ r = NegInf ->
      (exists s, PushInLayer.pushinSpeed e = Some s /\ parseInt s = r) \/
      (exists o, PushInLayer.options this = Some o /\
                 PushInLayer.opt_speed o = r))).
Proof.
  assert (F : forall r, r = PosInf \/ r = NegInf -> r <> ofZ 8).
  { intros r [-> | ->]; discriminate. }
  split.
  - intros e r. unfold r, PushIn.getSpeed. cbv zeta.
    set (n := match PushIn.pushinSpeed e with
              | Some s => parseInt s
              | None => parseInt "8"
              end).
    destruct (or_default_speed (if isNaN n then ofZ 8 else n))
      as [H1 [H2 H3]]; [destruct n; discriminate|].
    split; [exact H1|]. split; [exact H2|].
    intros Hinf. destruct H3 as [E|E]; [|now destruct (F _ Hinf)].
    rewrite E in Hinf |- *.
    destruct (isNaN n) eqn:N; [now destruct (F _ Hinf)|].
    unfold n in *. destruct (PushIn.pushinSpeed e) as [s|].
    + now exists s.
    + exfalso. revert Hinf. change (parseInt "8") with (ofZ 8).
      intros Hinf. now destruct (F _ Hinf).
  - intros this e r. unfold r, PushInLayer.getSpeed. cbv zeta.
    destruct (truthyString (PushInLayer.pushinSpeed e)).
    + set (n := match PushInLayer.pushinSpeed e with
                | Some s => parseInt s
                | None => NaN
                end).
      destruct (isNaN n) eqn:N.
      * split; [discriminate|]. split; [discriminate|].
        intros Hinf. now destruct (F _ Hinf).
      * destruct (or_default_speed n) as [H1 [H2 H3]];
          [destruct n; discriminate|].
        split; [exact H1|]. split; [exact H2|].
        intros Hinf. left.
        destruct H3 as [E3|E3]; [|now destruct (F _ Hinf)].
        unfold PushInLayer.DEFAULT_SPEED in *.
        rewrite E3 in Hinf |- *.
        unfold n in *. destruct (PushInLayer.pushinSpeed e) as [s|].
        -- now exists s.
        -- discriminate.
    + destruct (truthy (option_map PushInLayer.opt_speed
                          (PushInLayer.options this))) eqn:T.
      * destruct (PushInLayer.options this) as [o|]; [|discriminate].
        simpl option_map in *. unfold or. rewrite T. simpl toNumber.
        split; [destruct (PushInLayer.opt_speed o); discriminate || auto|].
        split.
        -- destruct (PushInLayer.opt_speed o) as [p| | |]; simpl; auto.
           intros Z. now rewrite (truthy_zero p Z) in T.
        -- intros _. right. now exists o.
      * split; [discriminate|]. split; [discriminate|].
        intros Hinf. now destruct (F _ Hinf).
Qed.

(** A speed attribute of 401 digits. *)
Example getSpeed_overflow :
  PushIn.getSpeed
    (PushIn.mkElement (Some (Sample.powerOfTen 400)) None None) = PosInf.
Proof. vm_compute. reflexivity. Qed.

(** A speed that is neither 0 nor [NaN], an infinity included, is kept
    as it is read. *)
Lemma getSpeed_reads (n : number) :
  truthy (Some n) = true ->
  (forall (e : PushIn.Element) (s : string),
     PushIn.pushinSpeed e = Some s -> parseInt s = n ->
     PushIn.getSpeed e = n) /\
  (forall (this : PushInLayer.PushInLayer) (e : PushInLayer.HTMLElement)
          (s : string),
     PushInLayer.pushinSpeed e = Some s -> parseInt s = n ->
     PushInLayer.getSpeed this e = n) /\
  (forall (this : PushInLayer.PushInLayer) (e : PushInLayer.HTMLElement)
          (o : PushInLayer.LayerOptions),
     truthyString (PushInLayer.pushinSpeed e) = false ->
     PushInLayer.options this = Some o -> PushInLayer.opt_speed o = n ->
     PushInLayer.getSpeed this e = n).
Proof.
  intros T.
  assert (N : isNaN n = false) by (destruct n; try reflexivity; discriminate).
  repeat split.
  - intros e s He Hs. unfold PushIn.getSpeed. rewrite He, Hs, N.
    cbv zeta. unfold or. now rewrite T.
  - intros this e s He Hs. unfold PushInLayer.getSpeed.
    rewrite He, (parseInt_truthyString s)
      by (rewrite Hs; destruct n; discriminate).
    rewrite Hs, N. cbv zeta. unfold or. now rewrite T.
  - intros this e o He Ho Hs. unfold PushInLayer.getSpeed.
    rewrite He, Ho. simpl option_map. rewrite Hs, T.
    unfold or. now rewrite T.
Qed.

(** X9.  Where the speed comes from.  A speed attribute that parses to a
    number other than 0 is the speed, in both generations and whatever the
    programmatic options say; in the TypeScript class the option [speed],
    when it is a number other than 0, is the speed of a layer whose
    attribute is absent or empty.  The same holds of an attribute that
    parses to an infinity and of an infinite option. *)
Theorem getSpeed_precedence (q : Q) :
  ~ q == 0 ->
  (forall (e : PushIn.Element) (s : string),
     PushIn.pushinSpeed e = Some s -> parseInt s = Num q ->
     PushIn.getSpeed e = Num q) /\
  (forall (this : PushInLayer.PushInLayer) (e : PushInLayer.HTMLElement)
          (s : string),
     PushInLayer.pushinSpeed e = Some s -> parseInt s = Num q ->
     PushInLayer.getSpeed this e = Num q) /\
  (forall (this : PushInLayer.PushInLayer) (e : PushInLayer.HTMLElement)
          (o : PushInLayer.LayerOptions),
     truthyString (PushInLayer.pushinSpeed e) = false ->
     PushInLayer.options this = Some o -> PushInLayer.opt_speed o = Num q ->
     PushInLayer.getSpeed this e = Num q) /\
  (forall n : number, n = PosInf \/ n = NegInf ->
     (forall (e : PushIn.Element) (s : string),
        PushIn.pushinSpeed e = Some s -> parseInt s = n ->
        PushIn.getSpeed e = n) /\
     (forall (this : PushInLayer.PushInLayer) (e : PushInLayer.HTMLElement)
             (s : string),
        PushInLayer.pushinSpeed e = Some s -> parseInt s = n ->
        PushInLayer.getSpeed this e = n) /\
     (forall (this : PushInLayer.PushInLayer) (e : PushInLayer.HTMLElement)
             (o : PushInLayer.LayerOptions),
        truthyString (PushInLayer.pushinSpeed e) = false ->
        PushInLayer.options this = Some o -> PushInLayer.opt_speed o = n ->
        PushInLayer.getSpeed this e = n)).
Proof.
  intros Hq.
  destruct (getSpeed_reads (Num q) (truthy_nonzero q Hq)) as [A [B C]].
  split; [exact A|]. split; [exact B|]. split; [exact C|].
  intros n [-> | ->]; now apply getSpeed_reads.
Qed.

(** The attribute "50" wins over the option 20; the option 20 serves a
    layer without attribute. *)
Lemma getSpeed_precedence_witness :
  (let this :=
     Sample.layer 0 1 0 0 1000 8 true
       (Some "50"%string) (Some (Sample.options_speed 20)) in
   PushInLayer.getSpeed this (PushInLayer.element this) = ofZ 50) /\
  (let this :=
     Sample.layer 0 1 0 0 1000 8 true None (Some (Sample.options_speed 20)) in
   PushInLayer.getSpeed this (PushInLayer.element this) = ofZ 20).
Proof.
  split; intros this.
  - assert (H : ~ 50 == 0) by discriminate.
    destruct (getSpeed_precedence 50 H) as [_ [A _]].
    apply (A this _ "50"%string); reflexivity.
  - assert (H : ~ 20 == 0) by discriminate.
    destruct (getSpeed_precedence 20 H) as [_ [_ [O _]]].
    apply (O this _ (Sample.options_speed 20)); reflexivity.
Defined.

Lemma factor_not_negative (sp : Q) : 0 <= sp -> 0 <= Qmin sp 100 / 100.
Proof.
  intros H. apply Qle_shift_div_l; [reflexivity|]. rewrite Qmult_0_l.
  apply Q.min_glb; [exact H | discriminate].
Qed.

Lemma scale_formula_mono (os ip sp p1 p2 : Q) :
  0 <= sp -> p1 <= p2 ->
  scale_formula os p1 ip sp <= scale_formula os p2 ip sp.
Proof.
  intros Hs Hp. unfold scale_formula.
  pose proof (factor_not_negative sp Hs) as F.
  set (c := Qmin sp 100 / 100) in *.
  apply Q.max_le_compat_r.
  unfold Qdiv. apply Qplus_le_r.
  apply Qmult_le_compat_r; [|discriminate].
  apply Qmult_le_compat_r; [lra | exact F].
Qed.

Lemma scale_formula_saturate (os p ip sp : Q) :
  100 <= sp -> scale_formula os p ip sp == scale_formula os p ip 100.
Proof.
  intros H. unfold scale_formula. rewrite (Q.min_r sp 100 H). reflexivity.
Qed.

Lemma scale_formula_at_inpoint (os ip sp : Q) :
  scale_formula os ip ip sp == Qmax os 0.
Proof.
  unfold scale_formula.
  assert (E : os + (ip - ip) * (Qmin sp 100 / 100) / 100 == os)
    by (unfold Qdiv; ring).
  rewrite E. reflexivity.
Qed.

Lemma numeq_Num (x : number) (f : Q) :
  numeq x (Num f) -> exists q, x = Num q /\ q == f.
Proof.
  destruct x as [q| | |]; simpl; [intros H; now exists q | | |]; intros [].
Qed.

Section ScaleValues.

Variables os ip sp : Q.

(** The scale of a layer with finite original scale, inpoint and speed, at
    a finite scroll position, in either generation. *)
Lemma ts_scale (this layer : PushInLayer.PushInLayer) (p : Q) :
  PushInLayer.originalScale layer = Num os ->
  PushInLayer.inpoint (PushInLayer.params layer) = Num ip ->
  PushInLayer.speed (PushInLayer.params layer) = Num sp ->
  PushInLayer.scrollY (PushInLayer.scene this) = Num p ->
  exists q, PushInLayer.getScaleValue this layer = Num q /\
            q == scale_formula os p ip sp.
Proof.
  intros Hos Hip Hsp Hp. apply numeq_Num.
  unfold PushInLayer.getScaleValue, PushInLayer.speedFactor.
  rewrite Hos, Hp, Hip, Hsp. apply scale_finite.
Qed.

Lemma js_scale (this : PushIn.PushIn) (layer : PushIn.Layer) (p : Q) :
  PushIn.originalScale layer = Num os ->
  PushIn.inpoint (PushIn.params layer) = Some (Num ip) ->
  PushIn.speed (PushIn.params layer) = Num sp ->
  PushIn.scrollPos this = Num p ->
  exists q, PushIn.getScaleValue this layer = Num q /\
            q == scale_formula os p ip sp.
Proof.
  intros Hos Hip Hsp Hp. apply numeq_Num.
  unfold PushIn.getScaleValue, PushIn.speedFactor.
  rewrite Hos, Hp, Hip, Hsp. apply scale_finite.
Qed.

End ScaleValues.

(** X10.  The scale never shrinks while the page scrolls down: for a layer
    with finite original scale and inpoint and a speed that is not
    negative, a scroll position further down gives a scale at least as
    large, in both generations of the code. *)
Theorem getScaleValue_monotone (os ip sp p1 p2 : Q) :
  0 <= sp -> p1 <= p2 ->
  (forall a b layer : PushInLayer.PushInLayer,
     PushInLayer.originalScale layer = Num os ->
     PushInLayer.inpoint (PushInLayer.params layer) = Num ip ->
     PushInLayer.speed (PushInLayer.params layer) = Num sp ->
     PushInLayer.scrollY (PushInLayer.scene a) = Num p1 ->
     PushInLayer.scrollY (PushInLayer.scene b) = Num p2 ->
     exists s1 s2,
       PushInLayer.getScaleValue a layer = Num s1 /\
       PushInLayer.getScaleValue b layer = Num s2 /\ s1 <= s2) /\
  (forall (a b : PushIn.PushIn) (layer : PushIn.Layer),
     PushIn.originalScale layer = Num os ->
     PushIn.inpoint (PushIn.params layer) = Some (Num ip) ->
     PushIn.speed (PushIn.params layer) = Num sp ->
     PushIn.scrollPos a = Num p1 ->
     PushIn.scrollPos b = Num p2 ->
     exists s1 s2,
       PushIn.getScaleValue a layer = Num s1 /\
       PushIn.getScaleValue b layer = Num s2 /\ s1 <= s2).
Proof.
  intros Hs Hp.
  pose proof (scale_formula_mono os ip sp p1 p2 Hs Hp) as M.
  split.
  - intros a b layer Hos Hip Hsp Ha Hb.
    destruct (ts_scale os ip sp a layer p1 Hos Hip Hsp Ha) as [s1 [E1 Q1]].
    destruct (ts_scale os ip sp b layer p2 Hos Hip Hsp Hb) as [s2 [E2 Q2]].
    exists s1, s2. repeat split; auto. now rewrite Q1, Q2.
  - intros a b layer Hos Hip Hsp Ha Hb.
    destruct (js_scale os ip sp a layer p1 Hos Hip Hsp Ha) as [s1 [E1 Q1]].
    destruct (js_scale os ip sp b layer p2 Hos Hip Hsp Hb) as [s2 [E2 Q2]].
    exists s1, s2. repeat split; auto. now rewrite Q1, Q2.
Qed.

(** A layer of speed 8 entering at 100, seen at 300 and at 500. *)
Lemma getScaleValue_monotone_witness :
  let a := Sample.layer 0 1 300 100 1100 8 true None None in
  let b := Sample.layer 0 1 500 100 1100 8 true None None in
  exists s1 s2,
    PushInLayer.getScaleValue a a = Num s1 /\
    PushInLayer.getScaleValue b a = Num s2 /\ s1 <= s2.
Proof.
  intros a b.
  assert (H1 : 0 <= 8) by discriminate.
  assert (H2 : inject_Z 300 <= inject_Z 500) by discriminate.
  exact (proj1 (getScaleValue_monotone 1 (inject_Z 100) 8 _ _ H1 H2)
           a b a eq_refl eq_refl eq_refl eq_refl eq_refl).
Defined.

Lemma ts_scaleOf (this layer : PushInLayer.PushInLayer) :
  PushInLayer.getScaleValue this layer =
  scaleOf (PushInLayer.originalScale layer)
          (sub (PushInLayer.scrollY (PushInLayer.scene this))
               (PushInLayer.inpoint (PushInLayer.params layer)))
          (PushInLayer.speed (PushInLayer.params layer)).
Proof. reflexivity. Qed.

Lemma js_scaleOf (this : PushIn.PushIn) (layer : PushIn.Layer) :
  PushIn.getScaleValue this layer =
  scaleOf (PushIn.originalScale layer)
          (sub (PushIn.scrollPos this)
               (toNumber (PushIn.inpoint (PushIn.params layer))))
          (PushIn.speed (PushIn.params layer)).
Proof. reflexivity. Qed.

(** At distance 0: the original scale for a speed that is finite or
    [+Infinity], [NaN] for the speeds [-Infinity] and [NaN]. *)
Lemma scaleOf_at_inpoint (os d : Q) (sp : number) :
  d == 0 ->
  (sp <> NaN -> sp <> NegInf ->
   numeq (scaleOf (Num os) (Num d) sp) (Num (Qmax os 0))) /\
  (sp = NaN \/ sp = NegInf -> scaleOf (Num os) (Num d) sp = NaN).
Proof.
  intros Hd. split.
  - intros H1 H2. destruct sp as [s| | |]; try congruence.
    + simpl. apply Q.max_compat; [|reflexivity].
      unfold Qdiv. rewrite Hd. ring.
    + simpl. apply Q.max_compat; [|reflexivity].
      unfold Qdiv. rewrite Hd. ring.
  - intros [-> | ->]; [reflexivity|].
    unfold scaleOf. simpl. unfold infinityTimes.
    apply Qeq_bool_iff in Hd. now rewrite Hd.
Qed.

(** Every speed from 100 on, [+Infinity] included, gives the scale of
    speed 100. *)
Lemma scaleOf_saturate (os d : Q) (sp : number) :
  le (ofZ 100) sp = true ->
  numeq (scaleOf (Num os) (Num d) sp) (scaleOf (Num os) (Num d) (ofZ 100)).
Proof.
  intros H. destruct sp as [s| | |]; try discriminate.
  - apply (le_Num (inject_Z 100) s) in H. simpl.
    apply Q.max_compat; [|reflexivity].
    rewrite (Q.min_r s (inject_Z 100) H).
    rewrite (Q.min_r (inject_Z 100) (inject_Z 100)) by apply Qle_refl.
    reflexivity.
  - simpl. apply Q.max_compat; [|reflexivity].
    rewrite (Q.min_r (inject_Z 100) (inject_Z 100)) by apply Qle_refl.
    reflexivity.
Qed.

(** X11.  Two fixed points of the scale of a layer with finite original
    scale and inpoint, in both generations of the code.  At the scroll
    position of its inpoint the layer has its original scale (0 if that is
    negative) for every speed that is a finite number or [+Infinity], and
    the scale is [NaN] there when the speed is [-Infinity] or [NaN]; and
    every speed of 100 or more, [+Infinity] included, gives the scale that
    speed 100 gives. *)
Theorem getScaleValue_inpoint_and_cap (os ip p : Q) (sp : number) :
  (forall this layer hundred : PushInLayer.PushInLayer,
     PushInLayer.originalScale layer = Num os ->
     PushInLayer.inpoint (PushInLayer.params layer) = Num ip ->
     PushInLayer.speed (PushInLayer.params layer) = sp ->
     PushInLayer.scrollY (PushInLayer.scene this) = Num p ->
     (p == ip -> sp <> NaN -> sp <> NegInf ->
      numeq (PushInLayer.getScaleValue this layer) (Num (Qmax os 0))) /\
     (p == ip -> sp = NaN \/ sp = NegInf ->
      PushInLayer.getScaleValue this layer = NaN) /\
     (le (ofZ 100) sp = true ->
      PushInLayer.originalScale hundred = Num os ->
      PushInLayer.inpoint (PushInLayer.params hundred) = Num ip ->
      PushInLayer.speed (PushInLayer.params hundred) = ofZ 100 ->
      numeq (PushInLayer.getScaleValue this layer)
            (PushInLayer.getScaleValue this hundred))) /\
  (forall (this : PushIn.PushIn) (layer hundred : PushIn.Layer),
     PushIn.originalScale layer = Num os ->
     PushIn.inpoint (PushIn.params layer) = Some (Num ip) ->
     PushIn.speed (PushIn.params layer) = sp ->
     PushIn.scrollPos this = Num p ->
     (p == ip -> sp <> NaN -> sp <> NegInf ->
      numeq (PushIn.getScaleValue this layer) (Num (Qmax os 0))) /\
     (p == ip -> sp = NaN \/ sp = NegInf ->
      PushIn.getScaleValue this layer = NaN) /\
     (le (ofZ 100) sp = true ->
      PushIn.originalScale hundred = Num os ->
      PushIn.inpoint (PushIn.params hundred) = Some (Num ip) ->
      PushIn.speed (PushIn.params hundred) = ofZ 100 ->
      numeq (PushIn.getScaleValue this layer)
            (PushIn.getScaleValue this hundred))).
Proof.
  assert (D : forall q, q == ip -> q - ip == 0) by (intros q E; rewrite E; ring).
  split.
  - intros this layer hundred Hos Hip Hsp Hp.
    rewrite !ts_scaleOf, Hos, Hip, Hsp, Hp. simpl sub.
    repeat split.
    + intros E. now apply scaleOf_at_inpoint, D.
    + intros E. now apply scaleOf_at_inpoint, D.
    + intros H Hos' Hip' Hsp'. rewrite Hos', Hip', Hsp'. simpl sub.
      now apply scaleOf_saturate.
  - intros this layer hundred Hos Hip Hsp Hp.
    rewrite !js_scaleOf, Hos, Hip, Hsp, Hp. simpl toNumber. simpl sub.
    repeat split.
    + intros E. now apply scaleOf_at_inpoint, D.
    + intros E. now apply scaleOf_at_inpoint, D.
    + intros H Hos' Hip' Hsp'. rewrite Hos', Hip', Hsp'.
      simpl toNumber. simpl sub.
      now apply scaleOf_saturate.
Qed.

(** Original scale 1, at the inpoint 100: the scale is 1 at speed 8, and a
    layer of speed 250 has the scale of a layer of speed 100 at 300. *)
Lemma getScaleValue_inpoint_and_cap_witness :
  (let this := Sample.layer 0 1 100 100 1100 8 true None None in
   numeq (PushInLayer.getScaleValue this this) (Num (Qmax 1 0))) /\
  (let this := Sample.layer 0 1 300 100 1100 250 true None None in
   let hundred := Sample.layer 0 1 300 100 1100 100 true None None in
   numeq (PushInLayer.getScaleValue this this)
         (PushInLayer.getScaleValue this hundred)).
Proof.
  split.
  - intros this.
    apply (proj1 (proj1 (getScaleValue_inpoint_and_cap 1 (inject_Z 100)
                           (inject_Z 100) (ofZ 8))
                    this this this eq_refl eq_refl eq_refl eq_refl));
      [reflexivity | discriminate | discriminate].
  - intros this hundred.
    apply (proj2 (proj2 (proj1 (getScaleValue_inpoint_and_cap 1 (inject_Z 100)
                                  (inject_Z 300) (ofZ 250))
                           this this hundred eq_refl eq_refl eq_refl eq_refl)));
      reflexivity.
Defined.

(** At its inpoint a layer of speed [-Infinity] has no scale. *)
Example getScaleValue_negative_infinity :
  let layer :=
    PushIn.mkLayer (PushIn.mkElement None None None) 0 (ofZ 1)
      (PushIn.mkRef [ofZ 100] [ofZ 1100])
      (PushIn.mkParams (Some (ofZ 100)) (Some (ofZ 1100)) NegInf) in
  PushIn.getScaleValue (Sample.js_pushin [layer] 100 1024) layer = NaN.
Proof. reflexivity. Qed.

(* ===================================================================== *)
(** * More on the opacity of [PushInLayer] *)
(* ===================================================================== *)

(** The clamped ratio over a positive window: 1 once the distance covers
    the window, the plain quotient inside it. *)
Lemma clamp_ratio_full (d t : Q) :
  0 < t -> t <= d ->
  exists q, div (max (min (Num d) (Num t)) (ofZ 0)) (Num t) = Num q /\ q == 1.
Proof.
  intros Ht Hd. simpl. rewrite (Qeq_bool_pos t Ht).
  eexists. split; [reflexivity|].
  rewrite (Q.min_r d t Hd).
  rewrite Q.max_l by (apply Qlt_le_weak; exact Ht).
  field. intros E. rewrite E in Ht. exact (Qlt_irrefl _ Ht).
Qed.

Lemma clamp_ratio_inside (d t : Q) :
  0 < t -> 0 <= d <= t ->
  exists q, div (max (min (Num d) (Num t)) (ofZ 0)) (Num t) = Num q /\
            q == d / t.
Proof.
  intros Ht [H0 Hd]. simpl. rewrite (Qeq_bool_pos t Ht).
  eexists. split; [reflexivity|].
  rewrite (Q.min_l d t Hd). rewrite Q.max_l by exact H0. reflexivity.
Qed.

Section Opacity.

Import PushInLayer.

Variable this : PushInLayer.
Variables p i o t u : Q.

Hypothesis Hp : scrollY (scene this) = Num p.
Hypothesis Hi : inpoint (params this) = Num i.
Hypothesis Ho : outpoint (params this) = Num o.
Hypothesis Ht : transitionStart (params this) = Num t.
Hypothesis Hu : transitionEnd (params this) = Num u.
Hypothesis Tpos : 0 < t.
Hypothesis Upos : 0 < u.

Lemma inpointDistance_full :
  index this = 0%Z \/ i + t <= p ->
  exists q, inpointDistance this = Num q /\ q == 1.
Proof.
  intros H. unfold inpointDistance.
  destruct (index this =? 0)%Z eqn:E; [exists 1; split; reflexivity|].
  apply Z.eqb_neq in E. destruct H as [H|H]; [contradiction|].
  rewrite Hp, Hi, Ht. change (sub (Num p) (Num i)) with (Num (p - i)).
  apply clamp_ratio_full; [exact Tpos | lra].
Qed.

Lemma outpointDistance_full :
  (index this + 1 = Z.of_nat (layers_length (scene this)))%Z \/ p <= o - u ->
  exists q, outpointDistance this = Num q /\ q == 1.
Proof.
  intros H. unfold outpointDistance.
  destruct (index this + 1 =? Z.of_nat (layers_length (scene this)))%Z eqn:E;
    [exists 1; split; reflexivity|].
  apply Z.eqb_neq in E. destruct H as [H|H]; [contradiction|].
  rewrite Hp, Ho, Hu. change (sub (Num o) (Num p)) with (Num (o - p)).
  apply clamp_ratio_full; [exact Upos | lra].
Qed.

Lemma inpointDistance_ramp :
  index this <> 0%Z -> i <= p <= i + t ->
  exists q, inpointDistance this = Num q /\ q == (p - i) / t.
Proof.
  intros Hn H. unfold inpointDistance.
  apply Z.eqb_neq in Hn. rewrite Hn, Hp, Hi, Ht.
  change (sub (Num p) (Num i)) with (Num (p - i)).
  apply clamp_ratio_inside; [exact Tpos | lra].
Qed.

Lemma outpointDistance_ramp :
  (index this + 1 <> Z.of_nat (layers_length (scene this)))%Z ->
  o - u <= p <= o ->
  exists q, outpointDistance this = Num q /\ q == (o - p) / u.
Proof.
  intros Hn H. unfold outpointDistance.
  apply Z.eqb_neq in Hn. rewrite Hn, Hp, Ho, Hu.
  change (sub (Num o) (Num p)) with (Num (o - p)).
  apply clamp_ratio_inside; [exact Upos | lra].
Qed.

(** Inside its window a layer is active. *)
Lemma isActive_inside : i <= p <= o -> isActive this = true.
Proof.
  intros [H1 H2]. unfold isActive. rewrite Hp, Hi, Ho.
  destruct (transitions (params this)); [|reflexivity].
  apply andb_true_intro. split; apply le_Num; assumption.
Qed.

Lemma before_inpoint_iff : lt (scrollY (scene this)) (inpoint (params this)) = true <-> p < i.
Proof. rewrite Hp, Hi. apply lt_Num. Qed.

Lemma past_outpoint_iff : gt (scrollY (scene this)) (outpoint (params this)) = true <-> o < p.
Proof. rewrite Hp, Ho. unfold gt. apply lt_Num. Qed.

End Opacity.

Lemma gt_not_le (x y : number) : gt x y = true -> le x y = false.
Proof.
  unfold gt. destruct x as [a| | |], y as [b| | |]; simpl; intros H;
    try reflexivity; try discriminate.
  now apply negb_true_iff in H.
Qed.

Lemma le_not_gt (x y : number) : le x y = true -> gt x y = false.
Proof.
  unfold gt. destruct x as [a| | |], y as [b| | |]; simpl; intros H;
    try reflexivity; try discriminate.
  now rewrite H.
Qed.

(** X12.  A layer with transitions disabled is never faded or hidden:
    [setLayerStyle] writes opacity 1 at every scroll position ([NaN]
    included) and for every ordinal; and it writes the scale of
    [getScaleValue] on every call, except for the first layer while the
    scroll position is before its inpoint, where the scale is left as it
    was. *)
Theorem setLayerStyle_transitions_disabled (this : PushInLayer.PushInLayer) :
  PushInLayer.transitions (PushInLayer.params this) = false ->
  let after := PushInLayer.element (PushInLayer.setLayerStyle this) in
  let first_before_inpoint :=
    (PushInLayer.index this =? 0)%Z &&
    lt (PushInLayer.scrollY (PushInLayer.scene this))
       (PushInLayer.inpoint (PushInLayer.params this)) in
  PushInLayer.opacity after = Some (ofZ 1) /\
  PushInLayer.transform after =
    if first_before_inpoint
    then PushInLayer.transform (PushInLayer.element this)
    else Some (PushInLayer.getScaleValue this this).
Proof.
  intros Htr after fb. unfold after, fb.
  rewrite setLayerStyle_opacity, setLayerStyle_transform.
  unfold PushInLayer.isActive. rewrite Htr.
  destruct (_ && lt _ _); [now split|].
  destruct (_ && gt _ _); now split.
Qed.

(** A middle layer far outside its window, transitions disabled. *)
Lemma setLayerStyle_transitions_disabled_witness :
  let this := Sample.layer 1 3 5000 900 1900 8 false None None in
  let after := PushInLayer.element (PushInLayer.setLayerStyle this) in
  PushInLayer.opacity after = Some (ofZ 1) /\
  PushInLayer.transform after = Some (PushInLayer.getScaleValue this this).
Proof.
  intros this after.
  exact (setLayerStyle_transitions_disabled this eq_refl).
Defined.

(** X13.  Past its outpoint a layer that is not the last one is hidden and
    frozen: with a window inpoint <= outpoint (and, in the TypeScript
    class, transitions enabled), at every scroll position beyond the
    outpoint [setLayerStyle] writes opacity 0 and leaves the scale as it
    was.  Both generations of the code. *)
Theorem setLayerStyle_past_outpoint :
  (forall this : PushInLayer.PushInLayer,
     (PushInLayer.index this + 1
      <> Z.of_nat (PushInLayer.layers_length (PushInLayer.scene this)))%Z ->
     PushInLayer.transitions (PushInLayer.params this) = true ->
     le (PushInLayer.inpoint (PushInLayer.params this))
        (PushInLayer.outpoint (PushInLayer.params this)) = true ->
     gt (PushInLayer.scrollY (PushInLayer.scene this))
        (PushInLayer.outpoint (PushInLayer.params this)) = true ->
     let after := PushInLayer.element (PushInLayer.setLayerStyle this) in
     PushInLayer.opacity after = Some (ofZ 0) /\
     PushInLayer.transform after
     = PushInLayer.transform (PushInLayer.element this)) /\
  (forall (this : PushIn.PushIn) (layer : PushIn.Layer),
     (PushIn.index layer + 1
      <> Z.of_nat (List.length (PushIn.layers this)))%Z ->
     le (toNumber (PushIn.inpoint (PushIn.params layer)))
        (toNumber (PushIn.outpoint (PushIn.params layer))) = true ->
     gt (PushIn.scrollPos this)
        (toNumber (PushIn.outpoint (PushIn.params layer))) = true ->
     let after := PushIn.elem (PushIn.setLayerStyle this layer) in
     PushIn.opacity after = Some (ofZ 0) /\
     PushIn.transform after = PushIn.transform (PushIn.elem layer)).
Proof.
  split.
  - intros this Hlast Htr Hwin Hpos after. unfold after.
    rewrite setLayerStyle_opacity, setLayerStyle_transform.
    apply Z.eqb_neq in Hlast.
    rewrite Hlast, (le_gt_not_lt _ _ _ Hwin Hpos), andb_false_r. simpl.
    unfold PushInLayer.isActive.
    rewrite Htr, (gt_not_le _ _ Hpos), andb_false_r. now split.
  - intros this layer Hlast Hwin Hpos after. unfold after.
    unfold PushIn.setLayerStyle.
    apply Z.eqb_neq in Hlast.
    rewrite Hlast, (le_gt_not_lt _ _ _ Hwin Hpos), andb_false_r. simpl.
    unfold PushIn.isActive.
    rewrite (gt_not_le _ _ Hpos), andb_false_r. now split.
Qed.

(** The first of two layers, window [0, 1000], at scroll position 1500. *)
Lemma setLayerStyle_past_outpoint_witness :
  let this := Sample.layer 0 2 1500 0 1000 8 true None None in
  PushInLayer.opacity (PushInLayer.element (PushInLayer.setLayerStyle this))
  = Some (ofZ 0).
Proof.
  intros this.
  assert (H : (PushInLayer.index this + 1
               <> Z.of_nat (PushInLayer.layers_length
                              (PushInLayer.scene this)))%Z) by discriminate.
  exact (proj1 (proj1 setLayerStyle_past_outpoint this H
                  eq_refl eq_refl eq_refl)).
Defined.

(** X14.  Where a layer is fully opaque.  With finite window and scroll
    position and positive transition windows, [setLayerStyle] writes
    opacity 1 whenever the scroll position is at least [transitionStart]
    past the inpoint (not required of the first layer, which never fades
    in, not even before its inpoint) and at least [transitionEnd] before
    the outpoint (not required of the last layer, which never fades out,
    not even past its outpoint). *)
Theorem setLayerStyle_fully_opaque
  (this : PushInLayer.PushInLayer) (p i o t u : Q) :
  PushInLayer.scrollY (PushInLayer.scene this) = Num p ->
  PushInLayer.inpoint (PushInLayer.params this) = Num i ->
  PushInLayer.outpoint (PushInLayer.params this) = Num o ->
  PushInLayer.transitionStart (PushInLayer.params this) = Num t ->
  PushInLayer.transitionEnd (PushInLayer.params this) = Num u ->
  0 < t -> 0 < u ->
  PushInLayer.index this = 0%Z \/ i + t <= p ->
  (PushInLayer.index this + 1
   = Z.of_nat (PushInLayer.layers_length (PushInLayer.scene this)))%Z
  \/ p <= o - u ->
  exists q,
    PushInLayer.opacity (PushInLayer.element (PushInLayer.setLayerStyle this))
    = Some (Num q) /\ q == 1.
Proof.
  intros Hp Hi Ho Ht Hu Tpos Upos Hin Hout.
  rewrite setLayerStyle_opacity.
  destruct (_ && lt _ _) eqn:B1; [exists 1; split; reflexivity|].
  destruct (_ && gt _ _) eqn:B2; [exists 1; split; reflexivity|].
  assert (Li : i <= p).
  { destruct Hin as [F|L]; [|lra].
    rewrite F in B1. simpl in B1.
    destruct (Qlt_le_dec p i) as [C|C]; [|exact C].
    apply (before_inpoint_iff this p i Hp Hi) in C. congruence. }
  assert (Lo : p <= o).
  { destruct Hout as [F|L]; [|lra].
    apply Z.eqb_eq in F. rewrite F in B2. simpl in B2.
    destruct (Qlt_le_dec o p) as [C|C]; [|exact C].
    apply (past_outpoint_iff this p o Hp Ho) in C. congruence. }
  rewrite (isActive_inside this p i o Hp Hi Ho (conj Li Lo)).
  destruct (PushInLayer.transitions _); [|exists 1; split; reflexivity].
  destruct (inpointDistance_full this p i t Hp Hi Ht Tpos Hin) as [a [-> Ea]].
  destruct (outpointDistance_full this p o u Hp Ho Hu Upos Hout)
    as [b [-> Eb]].
  exists (Qmin a b). split; [reflexivity|]. rewrite Ea, Eb. reflexivity.
Qed.

(** The first of three layers, window [0, 1000], before its inpoint and on
    its plateau. *)
Lemma setLayerStyle_fully_opaque_witness :
  let this := Sample.layer 0 3 500 0 1000 8 true None None in
  exists q,
    PushInLayer.opacity (PushInLayer.element (PushInLayer.setLayerStyle this))
    = Some (Num q) /\ q == 1.
Proof.
  intros this.
  apply (setLayerStyle_fully_opaque this (inject_Z 500) (inject_Z 0)
           (inject_Z 1000) (inject_Z 200) (inject_Z 200));
    try reflexivity.
  - now left.
  - right. discriminate.
Defined.

(** X15.  The fades are linear.  For a layer with transitions enabled,
    finite window and positive transition windows: while a layer that is
    not the first is within [transitionStart] of its inpoint (and not yet
    fading out), the opacity written is [(scrollPos - inpoint) /
    transitionStart]; while a layer that is not the last is within
    [transitionEnd] of its outpoint (and done fading in), it is
    [(outpoint - scrollPos) / transitionEnd]. *)
Theorem setLayerStyle_linear_fade
  (this : PushInLayer.PushInLayer) (p i o t u : Q) :
  PushInLayer.scrollY (PushInLayer.scene this) = Num p ->
  PushInLayer.inpoint (PushInLayer.params this) = Num i ->
  PushInLayer.outpoint (PushInLayer.params this) = Num o ->
  PushInLayer.transitionStart (PushInLayer.params this) = Num t ->
  PushInLayer.transitionEnd (PushInLayer.params this) = Num u ->
  0 < t -> 0 < u ->
  PushInLayer.transitions (PushInLayer.params this) = true ->
  let isFirst := PushInLayer.index this = 0%Z in
  let isLast :=
    (PushInLayer.index this + 1
     = Z.of_nat (PushInLayer.layers_length (PushInLayer.scene this)))%Z in
  let written :=
    PushInLayer.opacity
      (PushInLayer.element (PushInLayer.setLayerStyle this)) in
  (~ isFirst -> i <= p <= i + t -> (isLast /\ p <= o) \/ p <= o - u ->
   exists q, written = Some (Num q) /\ q == (p - i) / t) /\
  (~ isLast -> o - u <= p <= o -> (isFirst /\ i <= p) \/ i + t <= p ->
   exists q, written = Some (Num q) /\ q == (o - p) / u).
Proof.
  intros Hp Hi Ho Ht Hu Tpos Upos Htr isFirst isLast written.
  unfold written, isFirst, isLast. rewrite setLayerStyle_opacity. split.
  - intros Hn Hin Hout.
    assert (Lo : p <= o) by (destruct Hout as [[_ H]|H]; lra).
    pose proof Hn as Hn'. apply Z.eqb_neq in Hn'. rewrite Hn'.
    rewrite andb_false_l, Hp, Ho.
    rewrite (le_not_gt (Num p) (Num o)), andb_false_r
      by (now apply le_Num).
    rewrite (isActive_inside this p i o Hp Hi Ho) by lra.
    rewrite Htr.
    destruct (inpointDistance_ramp this p i t Hp Hi Ht Tpos Hn Hin)
      as [a [-> Ea]].
    destruct (outpointDistance_full this p o u Hp Ho Hu Upos) as [b [-> Eb]];
      [destruct Hout as [[H _]|H]; auto|].
    exists (Qmin a b). split; [reflexivity|].
    rewrite Q.min_l; [exact Ea|].
    rewrite Ea, Eb. apply Qle_shift_div_r; [exact Tpos | lra].
  - intros Hn Hout Hin.
    assert (Li : i <= p) by (destruct Hin as [[_ H]|H]; lra).
    rewrite Hp, Hi, Ho.
    assert (B1 : lt (Num p) (Num i) = false).
    { destruct (lt (Num p) (Num i)) eqn:E; [|reflexivity].
      apply lt_Num in E. lra. }
    rewrite B1, andb_false_r.
    rewrite (le_not_gt (Num p) (Num o)), andb_false_r
      by (apply le_Num; lra).
    rewrite (isActive_inside this p i o Hp Hi Ho) by lra.
    rewrite Htr.
    destruct (outpointDistance_ramp this p o u Hp Ho Hu Upos Hn Hout)
      as [b [-> Eb]].
    destruct (inpointDistance_full this p i t Hp Hi Ht Tpos) as [a [-> Ea]];
      [destruct Hin as [[H _]|H]; auto|].
    exists (Qmin a b). split; [reflexivity|].
    rewrite Q.min_r; [exact Eb|].
    rewrite Ea, Eb. apply Qle_shift_div_r; [exact Upos | lra].
Qed.

(** A middle layer half way through its fade-in. *)
Lemma setLayerStyle_linear_fade_witness :
  let this := Sample.layer 1 3 1000 900 1900 8 true None None in
  exists q,
    PushInLayer.opacity (PushInLayer.element (PushInLayer.setLayerStyle this))
    = Some (Num q) /\ q == (inject_Z 1000 - inject_Z 900) / inject_Z 200.
Proof.
  intros this.
  apply (proj1 (setLayerStyle_linear_fade this (inject_Z 1000) (inject_Z 900)
                  (inject_Z 1900) (inject_Z 200) (inject_Z 200)
                  eq_refl eq_refl eq_refl eq_refl eq_refl
                  eq_refl eq_refl eq_refl)).
  - discriminate.
  - split; discriminate.
  - right. discriminate.
Defined.

(** A ratio over a window that is 0 or [NaN] is [NaN]: over the window 0
    the clamped distance is 0, and 0 / 0 is [NaN]. *)
Lemma clamp_ratio_falsy (d t : number) :
  truthy (Some t) = false -> div (max (min d t) (ofZ 0)) t = NaN.
Proof.
  destruct t as [z| | |]; try discriminate; [|now destruct d].
  simpl. rewrite negb_false_iff. intros E.
  assert (Z : z == 0) by now apply Qeq_bool_iff.
  assert (N : forall x, x == 0 ->
                (if Qeq_bool z 0 then infinityTimes true x else Num (x / z))
                = NaN).
  { intros x Hx. rewrite E. unfold infinityTimes.
    apply Qeq_bool_iff in Hx. now rewrite Hx. }
  destruct d as [d| | |]; simpl; try reflexivity; apply N.
  - apply Qle_antisym; [|apply Q.le_max_r].
    apply Q.max_lub; [|apply Qle_refl].
    apply Qle_trans with z; [apply Q.le_min_r | rewrite Z; apply Qle_refl].
  - rewrite Z. reflexivity.
  - reflexivity.
Qed.

Lemma ts_degenerate_opacity (this : PushInLayer.PushInLayer) :
  PushInLayer.transitions (PushInLayer.params this) = true ->
  le (PushInLayer.inpoint (PushInLayer.params this))
     (PushInLayer.scrollY (PushInLayer.scene this)) = true ->
  le (PushInLayer.scrollY (PushInLayer.scene this))
     (PushInLayer.outpoint (PushInLayer.params this)) = true ->
  (PushInLayer.index this <> 0%Z /\
   truthy (Some (PushInLayer.transitionStart (PushInLayer.params this)))
   = false) \/
  ((PushInLayer.index this + 1
    <> Z.of_nat (PushInLayer.layers_length (PushInLayer.scene this)))%Z /\
   truthy (Some (PushInLayer.transitionEnd (PushInLayer.params this)))
   = false) ->
  PushInLayer.opacity
    (PushInLayer.element (PushInLayer.setLayerStyle this)) = Some NaN.
Proof.
  intros Htr Hin Hout Hdeg. rewrite setLayerStyle_opacity.
  pose proof (le_not_gt _ _ Hin) as B1. unfold gt in B1.
  rewrite B1, andb_false_r, (le_not_gt _ _ Hout), andb_false_r.
  unfold PushInLayer.isActive, ge. rewrite Htr, Hin, Hout. simpl.
  destruct Hdeg as [[Hn F]|[Hn F]]; apply Z.eqb_neq in Hn.
  - unfold PushInLayer.inpointDistance.
    now rewrite Hn, (clamp_ratio_falsy _ _ F).
  - unfold PushInLayer.outpointDistance.
    rewrite Hn, (clamp_ratio_falsy _ _ F).
    now destruct (PushInLayer.inpointDistance this).
Qed.

(** X16.  A transition window of length 0 (or [NaN], what a non-numeric
    attribute parses to) makes the opacity [NaN]: for a layer inside its
    window (with transitions enabled, in the TypeScript class),
    [setLayerStyle] writes [NaN] as soon as [transitionStart] is 0 or
    [NaN] and the layer is not the first, or [transitionEnd] is and the
    layer is not the last; likewise in [src/pushin.js] for its one
    [transitionLength]. *)
Theorem setLayerStyle_degenerate_window :
  (forall this : PushInLayer.PushInLayer,
     PushInLayer.transitions (PushInLayer.params this) = true ->
     le (PushInLayer.inpoint (PushInLayer.params this))
        (PushInLayer.scrollY (PushInLayer.scene this)) = true ->
     le (PushInLayer.scrollY (PushInLayer.scene this))
        (PushInLayer.outpoint (PushInLayer.params this)) = true ->
     (PushInLayer.index this <> 0%Z /\
      truthy (Some (PushInLayer.transitionStart (PushInLayer.params this)))
      = false) \/
     ((PushInLayer.index this + 1
       <> Z.of_nat (PushInLayer.layers_length (PushInLayer.scene this)))%Z /\
      truthy (Some (PushInLayer.transitionEnd (PushInLayer.params this)))
      = false) ->
     PushInLayer.opacity
       (PushInLayer.element (PushInLayer.setLayerStyle this)) = Some NaN) /\
  (forall (this : PushIn.PushIn) (layer : PushIn.Layer),
     le (toNumber (PushIn.inpoint (PushIn.params layer)))
        (PushIn.scrollPos this) = true ->
     le (PushIn.scrollPos this)
        (toNumber (PushIn.outpoint (PushIn.params layer))) = true ->
     truthy (Some (PushIn.transitionLength this)) = false ->
     PushIn.index layer <> 0%Z \/
     (PushIn.index layer + 1 <> Z.of_nat (List.length (PushIn.layers this)))%Z ->
     PushIn.opacity (PushIn.elem (PushIn.setLayerStyle this layer))
     = Some NaN).
Proof.
  split.
  - exact ts_degenerate_opacity.
  - intros this layer Hin Hout F Hord. rewrite js_setLayerStyle_opacity.
    pose proof (le_not_gt _ _ Hin) as B1. unfold gt in B1.
    rewrite B1, andb_false_r, (le_not_gt _ _ Hout), andb_false_r.
    unfold PushIn.isActive, ge. rewrite Hin, Hout. simpl.
    destruct Hord as [Hn|Hn]; apply Z.eqb_neq in Hn.
    + unfold PushIn.inpointDistance.
      now rewrite Hn, (clamp_ratio_falsy _ _ F).
    + unfold PushIn.outpointDistance.
      rewrite Hn, (clamp_ratio_falsy _ _ F).
      now destruct (PushIn.inpointDistance this layer).
Qed.

(** A middle layer whose [transitionStart] is 0, inside its window. *)
Lemma setLayerStyle_degenerate_window_witness :
  let this :=
    PushInLayerSettings.with_params
      (PushInLayer.mkLayerParams (ofZ 1000) (ofZ 900) (ofZ 1900) (ofZ 8)
         true (ofZ 0) (ofZ 200))
      (Sample.layer 1 3 1000 900 1900 8 true None None) in
  PushInLayer.opacity (PushInLayer.element (PushInLayer.setLayerStyle this))
  = Some NaN.
Proof.
  intros this.
  apply (proj1 setLayerStyle_degenerate_window this);
    try reflexivity.
  left. split; [discriminate | reflexivity].
Defined.

(* ===================================================================== *)
(** * Rendering and touch events of [src/pushin.js] *)
(* ===================================================================== *)

Section Rendering.

Import PushIn.

Lemma toggleLayers_run (this : PushIn) :
  execState PushInStart.toggleLayers this =
  set_layers (map (setLayerStyle this) (layers this)) this.
Proof. reflexivity. Qed.

(** What [setLayerStyle] reads from a layer and from the object is not
    changed by rendering, so rendering a rendered layer changes nothing. *)
Lemma js_setLayerStyle_again (this this' : PushIn) (l : Layer) :
  scrollPos this' = scrollPos this ->
  transitionLength this' = transitionLength this ->
  List.length (layers this') = List.length (layers this) ->
  setLayerStyle this' (setLayerStyle this l) = setLayerStyle this l.
Proof.
  intros Hs Ht Hl.
  unfold setLayerStyle, isActive, getScaleValue, inpointDistance,
    outpointDistance.
  rewrite Hs, Ht, Hl.
  destruct ((index l =? 0)%Z && _) eqn:B1; simpl; rewrite ?B1;
    [reflexivity|].
  destruct ((index l + 1 =? _)%Z && _) eqn:B2; simpl; rewrite ?B1, ?B2;
    [reflexivity|].
  destruct (ge _ _ && le _ _) eqn:B3; simpl; rewrite ?B1, ?B2, ?B3;
    reflexivity.
Qed.

(** At a scroll position that is [NaN] no branch of [setLayerStyle]
    applies. *)
Lemma js_setLayerStyle_NaN (this : PushIn) (l : Layer) :
  scrollPos this = NaN ->
  opacity (elem (setLayerStyle this l)) = Some (ofZ 0) /\
  transform (elem (setLayerStyle this l)) = transform (elem l) /\
  params (setLayerStyle this l) = params l.
Proof.
  intros H. unfold setLayerStyle, isActive, gt, ge. rewrite H.
  destruct (toNumber (inpoint (params l))),
    (toNumber (outpoint (params l))); simpl;
    rewrite ?andb_false_r; simpl; auto.
Qed.

End Rendering.

(** X17.  While [this.pageHeight] (which no method of the class assigns),
    [this.scrollEnd] (assigned on [touchend]) or [this.touchStart] is
    undefined, a [touchmove] sets the scroll position to [NaN], and the
    rendering that follows hides every layer: [toggleLayers] writes
    opacity 0 to each of them and no scale. *)
Theorem touchmove_undefined_hides_layers
  (this : PushIn.PushIn) (scrollEnd touchStart pageHeight : value)
  (touchMove innerHeight : number) :
  scrollEnd = None \/ touchStart = None \/ pageHeight = None ->
  let after :=
    execState (PushInStart.touchmove scrollEnd touchStart pageHeight
                 touchMove innerHeight ;;
               PushInStart.toggleLayers) this in
  PushIn.scrollPos after = NaN /\
  Forall2
    (fun l l' =>
       PushIn.opacity (PushIn.elem l') = Some (ofZ 0) /\
       PushIn.transform (PushIn.elem l') = PushIn.transform (PushIn.elem l) /\
       PushIn.params l' = PushIn.params l)
    (PushIn.layers this) (PushIn.layers after).
Proof.
  intros Hundef after.
  set (moved := execState (PushInStart.touchmove scrollEnd touchStart
                             pageHeight touchMove innerHeight) this).
  assert (Hnan : PushIn.scrollPos moved = NaN).
  { unfold moved, execState. simpl.
    destruct Hundef as [-> | [-> | ->]]; simpl.
    - reflexivity.
    - now destruct (toNumber scrollEnd).
    - now destruct (max _ _). }
  change after with (execState PushInStart.toggleLayers moved).
  rewrite toggleLayers_run. split; [exact Hnan|].
  change (PushIn.layers (PushIn.set_layers
            (map (PushIn.setLayerStyle moved) (PushIn.layers moved)) moved))
    with (map (PushIn.setLayerStyle moved) (PushIn.layers this)).
  induction (PushIn.layers this) as [|l ls IH]; constructor; [|exact IH].
  now apply js_setLayerStyle_NaN.
Qed.

(** The first touch on a page just loaded: nothing is assigned yet. *)
Lemma touchmove_undefined_hides_layers_witness :
  let this := Sample.js_pushin [Sample.js_layer 0 0 1000 8 None] 0 1000 in
  PushIn.scrollPos
    (execState (PushInStart.touchmove None (Some (ofZ 400)) None
                  (ofZ 300) (ofZ 800) ;;
                PushInStart.toggleLayers) this) = NaN.
Proof.
  intros this.
  exact (proj1 (touchmove_undefined_hides_layers this None (Some (ofZ 400))
                  None (ofZ 300) (ofZ 800) (or_introl eq_refl))).
Defined.

(** X18.  With every operand defined and finite, a [touchmove] sets the
    scroll position to [min(max(scrollEnd + touchStart - touchMove, 0),
    pageHeight - innerHeight)]: never beyond [pageHeight - innerHeight],
    and not negative exactly when the page is at least as high as the
    viewport (on a shorter page the result is the negative difference).
    Nothing but the scroll position changes. *)
Theorem touchmove_clamped
  (this : PushIn.PushIn) (e s h m v : Q) :
  let after :=
    execState (PushInStart.touchmove (Some (Num e)) (Some (Num s))
                 (Some (Num h)) (Num m) (Num v)) this in
  PushInStart.set_scrollPos (PushIn.scrollPos this) after = this /\
  exists q,
    PushIn.scrollPos after = Num q /\
    q == Qmin (Qmax (e + s - m) 0) (h - v) /\
    q <= h - v /\
    (0 <= h - v -> 0 <= q) /\
    (h - v < 0 -> q == h - v).
Proof.
  intros after. split; [now destruct this|].
  eexists. split; [reflexivity|]. split; [reflexivity|].
  split; [apply Q.le_min_r|]. split.
  - intros H. apply Q.min_glb; [apply Q.le_max_r | exact H].
  - intros H. apply Q.min_r.
    apply Qle_trans with 0; [now apply Qlt_le_weak | apply Q.le_max_r].
Qed.

Lemma touchmove_clamped_witness :
  exists q,
    PushIn.scrollPos
      (execState (PushInStart.touchmove (Some (Num 500)) (Some (Num 400))
                    (Some (Num 3000)) (Num 100) (Num 800))
         (Sample.js_pushin [] 0 1000)) = Num q /\ 0 <= q.
Proof.
  destruct (touchmove_clamped (Sample.js_pushin [] 0 1000)
              500 400 3000 100 800) as [_ [q [E [_ [_ [H _]]]]]].
  exists q. split; [exact E | apply H; discriminate].
Defined.

(** X19.  Rendering is idempotent and touches styles only:
    [toggleLayers] run twice leaves the object as one run does, and a run
    changes neither the breakpoints, the scroll position, the number of
    layers, nor any layer's index, original scale, [ref] lists, params or
    speed attribute. *)
Theorem toggleLayers_idempotent (this : PushIn.PushIn) :
  let once := execState PushInStart.toggleLayers this in
  execState PushInStart.toggleLayers once = once /\
  PushIn.set_layers (PushIn.layers this) once = this /\
  Forall2
    (fun l l' =>
       PushIn.index l' = PushIn.index l /\
       PushIn.originalScale l' = PushIn.originalScale l /\
       PushIn.ref l' = PushIn.ref l /\
       PushIn.params l' = PushIn.params l /\
       PushIn.pushinSpeed (PushIn.elem l') = PushIn.pushinSpeed (PushIn.elem l))
    (PushIn.layers this) (PushIn.layers once).
Proof.
  intros once. unfold once. rewrite !toggleLayers_run. split; [|split].
  - set (rendered := map (PushIn.setLayerStyle this) (PushIn.layers this)).
    assert (R : map (PushIn.setLayerStyle (PushIn.set_layers rendered this))
                  rendered = rendered).
    { unfold rendered at 2 3. rewrite map_map.
      apply map_ext. intros l.
      apply js_setLayerStyle_again; simpl; auto.
      unfold rendered. now rewrite length_map. }
    unfold PushIn.set_layers at 1. simpl. now rewrite R.
  - now destruct this.
  - simpl PushIn.layers.
    induction (PushIn.layers this) as [|l ls IH]; constructor; [|exact IH].
    unfold PushIn.setLayerStyle.
    destruct (_ && lt _ _); [now repeat split|].
    destruct (_ && gt _ _); [now repeat split|].
    destruct (PushIn.isActive _ _); now repeat split.
Qed.

(* ===================================================================== *)
(** * The set-up of the layers: [PushIn.getLayers] *)
(* ===================================================================== *)

Section GetLayers.

Import PushIn PushInStart.

Variable scene : SceneElement.
Variable total : Z.

(** One round of the loop, when [getInpoints] finds what it reads. *)
Lemma getLayer_run (elem : LayerElement) (i : Z) (this : PushIn)
  (inps : list number) :
  getInpoints scene this elem i = Some inps ->
  let outs := getOutpoints this elem (item inps 0) in
  let layer :=
    mkLayer (element elem) i (scaleX elem) (mkRef inps outs)
      (mkParams (evalState (getInpoint inps) this)
                (evalState (getInpoint inps ;; getOutpoint outs) this)
                (getSpeed (element elem))) in
  runState (getLayer scene total elem i) this =
  (Some (total - i)%Z, set_layers (layers this ++ [layer]) this).
Proof.
  intros H outs layer. subst layer outs.
  unfold getLayer, runState at 1. simpl. rewrite H. simpl.
  unfold evalState, set_breakpoints, set_layers, setZIndex. simpl.
  rewrite !rev_involutive. reflexivity.
Qed.

(** With as many layers stored as rounds done, [getInpoints] finds the
    previous layer. *)
Lemma getInpoints_defined (elem : LayerElement) (this : PushIn) :
  exists inps,
    getInpoints scene this elem (Z.of_nat (List.length (layers this)))
    = Some inps.
Proof.
  unfold getInpoints.
  destruct (pushinFrom elem); [eexists; reflexivity|].
  destruct (Z.of_nat (List.length (layers this)) =? 0)%Z eqn:E0.
  - destruct (scene_pushinFrom scene); [eexists; reflexivity|].
    apply Z.eqb_eq in E0.
    destruct (_ >? 0)%Z eqn:G; [apply Z.gtb_lt in G; lia|].
    eexists; reflexivity.
  - apply Z.eqb_neq in E0.
    destruct (_ >? 0)%Z eqn:G;
      [|pose proof (Zgt_cases (Z.of_nat (List.length (layers this))) 0) as C;
        rewrite G in C; lia].
    destruct (item_in_range (layers this)
                (Z.of_nat (List.length (layers this)) - 1)) as [prev ->];
      [lia|].
    eexists; reflexivity.
Qed.

End GetLayers.

Section GetLayersLoop.

Import PushIn PushInStart.

Variable scene : SceneElement.
Variable total : Z.

Lemma getLayers_from_cons (elem : LayerElement) (rest : list LayerElement)
  (i : Z) (this : PushIn) :
  runState (getLayers_from scene total (elem :: rest) i) this =
  let (z, s1) := runState (getLayer scene total elem i) this in
  match z with
  | None => (None, s1)
  | Some z =>
      let (zs, s2) := runState (getLayers_from scene total rest (i + 1)) s1 in
      (option_map (cons z) zs, s2)
  end.
Proof.
  change (runState (getLayers_from scene total (elem :: rest) i) this)
    with (let (v, s) := runState (getLayer scene total elem i) this in
          runState
            (match v return method (option (list Z)) with
             | None => ret None
             | Some z =>
                 zs <- getLayers_from scene total rest (i + 1) ;;
                 ret (option_map (cons z) zs)
             end) s).
  destruct (runState (getLayer scene total elem i) this) as [[z|] s1];
    reflexivity.
Qed.

Lemma length_pushed (this : PushIn) (l : Layer) :
  Z.of_nat (List.length (layers (set_layers (layers this ++ [l]) this)))
  = (Z.of_nat (List.length (layers this)) + 1)%Z.
Proof. simpl. rewrite length_app. simpl. lia. Qed.

Lemma set_layers_pushed (this : PushIn) (l : Layer) (new : list Layer) :
  set_layers (layers (set_layers (layers this ++ [l]) this) ++ new)
             (set_layers (layers this ++ [l]) this)
  = set_layers (layers this ++ l :: new) this.
Proof. unfold set_layers. simpl. now rewrite <- app_assoc. Qed.

(** What [getInpoints] and [getOutpoints] return is never empty. *)
Lemma getInpoints_not_empty (elem : LayerElement) (i : Z) (this : PushIn)
  (inps : list number) :
  getInpoints scene this elem i = Some inps -> inps <> [].
Proof.
  unfold getInpoints.
  destruct (pushinFrom elem);
    [intros [= <-]; apply parseList_not_empty|].
  destruct (i =? 0)%Z, (scene_pushinFrom scene);
    try (intros [= <-]; apply parseList_not_empty);
    destruct (i >? 0)%Z; try (intros [= <-]; discriminate);
    destruct (item (layers this) (i - 1)); intros [= <-]; discriminate.
Qed.

Lemma getOutpoints_not_empty (elem : LayerElement) (this : PushIn) (v : value) :
  getOutpoints this elem v <> [].
Proof.
  unfold getOutpoints.
  destruct (pushinTo elem); [apply parseList_not_empty | discriminate].
Qed.

Lemma or_defined (values : list number) (i : Z) :
  values <> [] -> exists v, or (item values i) (item values 0) = Some v.
Proof.
  intros H. destruct values as [|v0 r]; [now destruct H|].
  unfold or. destruct (truthy (item (v0 :: r) i)) eqn:T.
  - destruct (item (v0 :: r) i) as [v|]; [now exists v | discriminate].
  - now exists v0.
Qed.

(** The loop from a state that holds as many layers as rounds were done. *)
Lemma getLayers_from_run (elems : list LayerElement) :
  forall this : PushIn,
  exists new,
    runState (getLayers_from scene total elems
                (Z.of_nat (List.length (layers this)))) this
    = (Some (zIndices total (Z.of_nat (List.length (layers this)))
               (List.length elems)),
       set_layers (layers this ++ new) this) /\
    Forall2
      (fun e l =>
         elem l = element e /\ originalScale l = scaleX e /\
         speed (params l) = getSpeed (element e) /\
         inpoints (ref l) <> [] /\ outpoints (ref l) <> [] /\
         (exists a, inpoint (params l) = Some a) /\
         (exists b, outpoint (params l) = Some b))
      elems new /\
    map index new =
    map Z.of_nat (seq (List.length (layers this)) (List.length elems)).
Proof.
  induction elems as [|e rest IH]; intros this.
  - exists []. simpl. rewrite app_nil_r.
    split; [now destruct this | split; constructor].
  - destruct (getInpoints_defined scene e this) as [inps Hin].
    rewrite getLayers_from_cons, (getLayer_run scene total e _ this inps Hin).
    cbv zeta.
    set (outs := getOutpoints this e (item inps 0)).
    set (l := mkLayer _ _ _ _ _).
    destruct (IH (set_layers (layers this ++ [l]) this))
      as [new [Hrun [Hall Hidx]]].
    rewrite length_pushed in Hrun. rewrite Hrun.
    exists (l :: new). split; [|split].
    + rewrite set_layers_pushed. simpl.
      replace (Z.of_nat (List.length (layers this ++ [l])))
        with (Z.of_nat (List.length (layers this)) + 1)%Z
        by (rewrite length_app; simpl; lia).
      reflexivity.
    + constructor; [|exact Hall].
      repeat split.
      * exact (getInpoints_not_empty e _ this inps Hin).
      * apply getOutpoints_not_empty.
      * apply or_defined. exact (getInpoints_not_empty e _ this inps Hin).
      * apply or_defined. apply getOutpoints_not_empty.
    + simpl. f_equal.
      replace (S (List.length (layers this)))
        with (List.length (layers (set_layers (layers this ++ [l]) this)))
        by (simpl; rewrite length_app; simpl; lia).
      exact Hidx.
Qed.

Lemma zIndices_nth (n : nat) :
  forall (i : Z) (k : nat) (z : Z),
    nth_error (zIndices total i n) k = Some z ->
    z = (total - i - Z.of_nat k)%Z /\ (k < n)%nat.
Proof.
  induction n as [|n IH]; intros i k z; simpl.
  - destruct k; discriminate.
  - destruct k as [|k]; simpl.
    + intros [= <-]. split; lia.
    + intros H. destruct (IH _ _ _ H) as [-> L]. split; lia.
Qed.

End GetLayersLoop.

(** X20.  [getLayers], run on an object that holds no layer yet, never
    fails on a missing previous layer, whatever the elements and their
    attributes.  It stores one layer per element, in document order, with
    indices 0, 1, ...; each keeps its element, the scale read from it and
    the speed of [getSpeed]; the lists of inpoints and outpoints it keeps
    are never empty and the inpoint and outpoint resolved from them are
    never undefined.  The z-index written for the layer of index [k] is
    [n - k], so the [n] layers get n, ..., 1: earlier layers above later
    ones.  Breakpoints and scroll position are as before. *)
Theorem getLayers_structure
  (scene : PushInStart.SceneElement) (elems : list PushInStart.LayerElement)
  (this : PushIn.PushIn) :
  PushIn.layers this = [] ->
  let n := List.length elems in
  exists new zs,
    runState (PushInStart.getLayers scene elems) this
    = (Some zs, PushIn.set_layers new this) /\
    Forall2
      (fun e l =>
         PushIn.elem l = PushInStart.element e /\
         PushIn.originalScale l = PushInStart.scaleX e /\
         PushIn.speed (PushIn.params l)
         = PushIn.getSpeed (PushInStart.element e) /\
         PushIn.inpoints (PushIn.ref l) <> [] /\
         PushIn.outpoints (PushIn.ref l) <> [] /\
         (exists a, PushIn.inpoint (PushIn.params l) = Some a) /\
         (exists b, PushIn.outpoint (PushIn.params l) = Some b))
      elems new /\
    map PushIn.index new = map Z.of_nat (seq 0 n) /\
    List.length zs = n /\
    (forall k z, nth_error zs k = Some z ->
                 z = (Z.of_nat n - Z.of_nat k)%Z /\
                 (1 <= z <= Z.of_nat n)%Z).
Proof.
  intros Hempty n.
  destruct (getLayers_from_run scene (Z.of_nat n) elems this)
    as [new [Hrun [Hall Hidx]]].
  rewrite Hempty in Hrun, Hidx. simpl in Hrun, Hidx.
  exists new, (zIndices (Z.of_nat n) 0 n).
  split; [exact Hrun|]. split; [exact Hall|]. split; [exact Hidx|]. split.
  - clear. generalize 0%Z, (Z.of_nat n).
    induction n as [|k IH]; intros i t; simpl; [reflexivity|].
    now rewrite IH.
  - intros k z H. destruct (zIndices_nth _ _ _ _ _ H) as [-> L]. lia.
Qed.

(** Three elements, the second with its own window. *)
Lemma getLayers_structure_witness :
  let plain :=
    PushInStart.mkLayerElement (PushIn.mkElement None None None)
      None None (ofZ 1) in
  let custom :=
    PushInStart.mkLayerElement (PushIn.mkElement (Some "20"%string) None None)
      (Some "500,600"%string) (Some "1500"%string) (ofZ 1) in
  let scene := PushInStart.mkSceneElement (ofZ 0) None None in
  exists new zs,
    runState (PushInStart.getLayers scene [plain; custom; plain])
             (Sample.js_pushin [] 0 1000)
    = (Some zs, PushIn.set_layers new (Sample.js_pushin [] 0 1000)) /\
    map PushIn.index new = [0; 1; 2]%Z /\
    List.length zs = 3%nat.
Proof.
  intros plain custom scene.
  destruct (getLayers_structure scene [plain; custom; plain]
              (Sample.js_pushin [] 0 1000) eq_refl)
    as [new [zs [Hrun [_ [Hidx [Hlen _]]]]]].
  exists new, zs. split; [exact Hrun|]. split; [exact Hidx | exact Hlen].
Defined.

Section DefaultChain.

Import PushIn PushInStart.

Variable scene : SceneElement.
Variable total : Z.
Variables depth gap : Q.

Hypothesis scene_default : scene_pushinFrom scene = None.

(** An element without [data-pushin-from] and [data-pushin-to]. *)
Let plain (e : LayerElement) : Prop :=
  pushinFrom e = None /\ pushinTo e = None.

Lemma getLayers_from_chain (elems : list LayerElement) :
  Forall plain elems ->
  forall (this : PushIn) (start : Q),
    speedDelta this = Num gap -> layerDepth this = Num depth ->
    (layers this = [] /\ exists t, top scene = Num t /\ t == start) \/
    (exists prev b,
       item (layers this) (Z.of_nat (List.length (layers this)) - 1)
       = Some prev /\
       outpoint (params prev) = Some (Num b) /\ b - gap == start) ->
    exists new zs,
      runState (getLayers_from scene total elems
                  (Z.of_nat (List.length (layers this)))) this
      = (Some zs, set_layers (layers this ++ new) this) /\
      chained depth gap start (Z.of_nat (List.length (layers this))) new.
Proof.
  induction 1 as [|e rest [Hfrom Hto] Hrest IH]; intros this start Hgap Hdepth Hprev.
  - exists [], []. simpl. rewrite app_nil_r. split; [now destruct this | exact I].
  - assert (Hin : exists a,
               getInpoints scene this e (Z.of_nat (List.length (layers this)))
               = Some [Num a] /\ a == start).
    { unfold getInpoints. rewrite Hfrom, scene_default.
      destruct Hprev as [[Hnil [t [Htop Ht]]] | [prev [b [Hitem [Hout Hb]]]]].
      - rewrite Hnil. simpl. exists t. now rewrite Htop.
      - assert (Hpos : (0 < Z.of_nat (List.length (layers this)))%Z).
        { apply item_Some_range in Hitem. lia. }
        destruct (_ =? 0)%Z eqn:E0; [apply Z.eqb_eq in E0; lia|].
        destruct (_ >? 0)%Z eqn:G;
          [|pose proof (Zgt_cases (Z.of_nat (List.length (layers this))) 0)
              as C; rewrite G in C; lia].
        rewrite Hitem, Hout, Hgap. simpl. now exists (b - gap). }
    destruct Hin as [a [Hin Ha]].
    rewrite getLayers_from_cons, (getLayer_run scene total e _ this _ Hin).
    cbv zeta.
    assert (Houts : getOutpoints this e (item [Num a] 0) = [Num (a + depth)]).
    { unfold getOutpoints. now rewrite Hto, Hdepth. }
    rewrite Houts.
    change (evalState (getInpoint [Num a]) this)
      with (or (item [Num a] (evalState getBreakpointIndex this))
               (item [Num a] 0)).
    change (evalState (getInpoint [Num a] ;; getOutpoint [Num (a + depth)]) this)
      with (or (item [Num (a + depth)]
                  (evalState (getBreakpointIndex ;; getBreakpointIndex) this))
               (item [Num (a + depth)] 0)).
    rewrite !or_singleton.
    set (l := mkLayer _ _ _ _ _).
    destruct (IH (set_layers (layers this ++ [l]) this) (start + depth - gap))
      as [new [zs [Hrun Hchain]]]; [exact Hgap | exact Hdepth | |].
    + right. exists l, (a + depth). split; [|split].
      * rewrite length_pushed.
        replace (Z.of_nat (List.length (layers this)) + 1 - 1)%Z
          with (Z.of_nat (List.length (layers this))) by lia.
        simpl layers. rewrite item_nth_error, nth_error_app2 by lia.
        now rewrite Nat.sub_diag.
      * reflexivity.
      * rewrite Ha. reflexivity.
    + rewrite length_pushed in Hrun, Hchain. rewrite Hrun.
      exists (l :: new). eexists. split.
      * rewrite set_layers_pushed. reflexivity.
      * simpl. split; [reflexivity|]. split; [|exact Hchain].
        exists a, (a + depth). repeat split; auto. now rewrite Ha.
Qed.

End DefaultChain.

(** X21.  The default layout.  For elements without [data-pushin-from] and
    [data-pushin-to], in a scene without [data-pushin-from], [getLayers]
    chains the layers back to back: the first one enters at the top of
    the scene, every layer leaves [layerDepth] after it enters, and every
    next layer enters [speedDelta] before the previous one leaves, at
    every viewport width and whatever the breakpoints are. *)
Theorem getLayers_default_chain
  (scene : PushInStart.SceneElement) (elems : list PushInStart.LayerElement)
  (this : PushIn.PushIn) (t depth gap : Q) :
  PushIn.layers this = [] ->
  PushInStart.scene_pushinFrom scene = None ->
  PushInStart.top scene = Num t ->
  PushIn.layerDepth this = Num depth ->
  PushIn.speedDelta this = Num gap ->
  Forall (fun e => PushInStart.pushinFrom e = None /\
                   PushInStart.pushinTo e = None) elems ->
  exists new zs,
    runState (PushInStart.getLayers scene elems) this
    = (Some zs, PushIn.set_layers new this) /\
    chained depth gap t 0 new.
Proof.
  intros Hempty Hscene Htop Hdepth Hgap Hplain.
  destruct (getLayers_from_chain scene (Z.of_nat (List.length elems))
              depth gap Hscene elems Hplain this t Hgap Hdepth)
    as [new [zs [Hrun Hchain]]].
  - left. split; [exact Hempty|]. exists t. split; [exact Htop | reflexivity].
  - rewrite Hempty in Hrun, Hchain. simpl in Hrun, Hchain.
    now exists new, zs.
Qed.

(** Three plain layers in the scene of [start()]: layer depth 1000, speed
    delta 100, top 0. *)
Lemma getLayers_default_chain_witness :
  let plain :=
    PushInStart.mkLayerElement (PushIn.mkElement None None None)
      None None (ofZ 1) in
  let scene := PushInStart.mkSceneElement (ofZ 0) None None in
  exists new zs,
    runState (PushInStart.getLayers scene [plain; plain; plain])
             (Sample.js_pushin [] 0 1000)
    = (Some zs, PushIn.set_layers new (Sample.js_pushin [] 0 1000)) /\
    chained 1000 100 0 0 new.
Proof.
  intros plain scene.
  apply (getLayers_default_chain scene [plain; plain; plain]
           (Sample.js_pushin [] 0 1000) 0 1000 100);
    try reflexivity.
  repeat constructor.
Defined.

Example getLayers_default_windows :
  let plain :=
    PushInStart.mkLayerElement (PushIn.mkElement None None None)
      None None (ofZ 1) in
  let scene := PushInStart.mkSceneElement (ofZ 0) None None in
  map (fun l => (PushIn.inpoint (PushIn.params l),
                 PushIn.outpoint (PushIn.params l)))
    (PushIn.layers
       (execState (PushInStart.getLayers scene [plain; plain; plain])
          (Sample.js_pushin [] 0 1000)))
  = [(Some (Num 0), Some (Num (0 + 1000)));
     (Some (Num (0 + 1000 - 100)), Some (Num (0 + 1000 - 100 + 1000)));
     (Some (Num (0 + 1000 - 100 + 1000 - 100)),
      Some (Num (0 + 1000 - 100 + 1000 - 100 + 1000)))].
Proof. reflexivity. Qed.

(* ===================================================================== *)
(** * Transition settings and visibility of [PushInLayer] *)
(* ===================================================================== *)

(** X22.  When transitions are off.  [getTransitions] returns false
    exactly in two cases: the attribute [data-pushin-transitions] has the
    value "false" or "0"; or the attribute is absent or empty and the
    programmatic options set [transitions: false].  Any other attribute
    value that is not empty switches transitions on, even against the
    options. *)
Theorem getTransitions_false_iff
  (this : PushInLayer.PushInLayer) (attr : option string) :
  PushInLayerSettings.getTransitions this attr = false <->
  (attr = Some "false"%string \/ attr = Some "0"%string) \/
  (truthyString attr = false /\
   exists o, PushInLayer.options this = Some o /\
             PushInLayer.opt_transitions o = Some false).
Proof.
  unfold PushInLayerSettings.getTransitions.
  assert (D : (match option_map PushInLayer.opt_transitions
                       (PushInLayer.options this) with
               | Some (Some b) => b
               | _ => true
               end = false) <->
              exists o, PushInLayer.options this = Some o /\
                        PushInLayer.opt_transitions o = Some false).
  { destruct (PushInLayer.options this) as [o|]; simpl.
    - destruct (PushInLayer.opt_transitions o) as [[|]|] eqn:E; split;
        try discriminate; try reflexivity.
      + intros [o' [[= <-] H]]. congruence.
      + intros _. now exists o.
      + intros [o' [[= <-] H]]. congruence.
    - split; [discriminate | intros [o [H _]]; discriminate]. }
  destruct attr as [s|].
  - destruct s as [|c r].
    + simpl truthyString. cbv iota. rewrite D. split.
      * intros H. right. now split.
      * intros [[H|H]|[_ H]]; [discriminate | discriminate | exact H].
    + simpl truthyString. cbv iota. split.
      * intros H. left.
        destruct (String.eqb (String c r) "false") eqn:E1.
        -- apply String.eqb_eq in E1. left. now rewrite E1.
        -- destruct (String.eqb (String c r) "0") eqn:E2; [|discriminate].
           apply String.eqb_eq in E2. right. now rewrite E2.
      * intros [[E|E]|[E _]]; [| |discriminate];
          injection E as -> ->; reflexivity.
  - rewrite D. split.
    + intros H. right. now split.
    + intros [[H|H]|[_ H]]; [discriminate | discriminate | exact H].
Qed.

(** "0" switches transitions off against the option [transitions: true];
    "no" switches them on against [transitions: false]. *)
Lemma getTransitions_false_iff_witness :
  let on :=
    PushInLayer.mkLayerOptions [] [] (ofZ 8) (Some true) None None in
  let off :=
    PushInLayer.mkLayerOptions [] [] (ofZ 8) (Some false) None None in
  PushInLayerSettings.getTransitions
    (Sample.layer 0 1 0 0 1000 8 true None (Some on)) (Some "0"%string)
  = false /\
  PushInLayerSettings.getTransitions
    (Sample.layer 0 1 0 0 1000 8 true None (Some off)) (Some "no"%string)
  <> false.
Proof.
  intros on off. split.
  - apply (proj2 (getTransitions_false_iff
                    (Sample.layer 0 1 0 0 1000 8 true None (Some on))
                    (Some "0"%string))).
    left. now right.
  - intros H.
    apply (proj1 (getTransitions_false_iff
                    (Sample.layer 0 1 0 0 1000 8 true None (Some off))
                    (Some "no"%string))) in H.
    destruct H as [[H|H]|[H _]]; discriminate.
Defined.

(** X23.  A transition length that cannot be parsed is not replaced by a
    default (unlike a speed): when [data-pushin-transition-start] or
    [data-pushin-transition-end] is present with a value [parseInt] reads
    no number from (the empty value included), [setLayerParams] stores
    [NaN] for it, whatever the options and the default length are; and
    [setLayerStyle] then writes the opacity [NaN] while the layer is inside
    its window with transitions enabled, for a start length on a layer
    that is not the first, for an end length on one that is not the
    last. *)
Theorem setLayerParams_unparsed_transition
  (DEFAULT : number)
  (getBreakpointIndex : PushInLayer.PushInScene -> list number -> Z)
  (this : PushInLayer.PushInLayer)
  (attrs : PushInLayerSettings.TransitionAttributes) :
  let configured :=
    PushInLayerSettings.setLayerParams DEFAULT getBreakpointIndex this attrs in
  let p := PushInLayer.params configured in
  let inside :=
    PushInLayer.transitions p = true /\
    le (PushInLayer.inpoint p)
       (PushInLayer.scrollY (PushInLayer.scene this)) = true /\
    le (PushInLayer.scrollY (PushInLayer.scene this))
       (PushInLayer.outpoint p) = true in
  let opacity :=
    PushInLayer.opacity
      (PushInLayer.element (PushInLayer.setLayerStyle configured)) in
  (forall s,
     PushInLayerSettings.pushinTransitionStart attrs = Some s ->
     parseInt s = NaN ->
     PushInLayer.transitionStart p = NaN /\
     (inside -> PushInLayer.index this <> 0%Z -> opacity = Some NaN)) /\
  (forall s,
     PushInLayerSettings.pushinTransitionEnd attrs = Some s ->
     parseInt s = NaN ->
     PushInLayer.transitionEnd p = NaN /\
     (inside ->
      (PushInLayer.index this + 1
       <> Z.of_nat (PushInLayer.layers_length (PushInLayer.scene this)))%Z ->
      opacity = Some NaN)).
Proof.
  intros configured p inside opacity. split.
  - intros s Hs Hnan.
    assert (E : PushInLayer.transitionStart p = NaN).
    { unfold p, configured. simpl.
      unfold PushInLayerSettings.getTransitionStart. now rewrite Hs. }
    split; [exact E|].
    intros [Htr [Hin Hout]] Hn.
    apply (ts_degenerate_opacity configured Htr Hin Hout).
    left. split; [exact Hn|]. fold p. now rewrite E.
  - intros s Hs Hnan.
    assert (E : PushInLayer.transitionEnd p = NaN).
    { unfold p, configured. simpl.
      unfold PushInLayerSettings.getTransitionEnd. now rewrite Hs. }
    split; [exact E|].
    intros [Htr [Hin Hout]] Hn.
    apply (ts_degenerate_opacity configured Htr Hin Hout).
    right. split; [exact Hn|]. fold p. now rewrite E.
Qed.

(** The attribute "fast" on the second of three layers, window
    [900, 1900], at scroll position 1000. *)
Lemma setLayerParams_unparsed_transition_witness :
  let this := Sample.layer 1 3 1000 900 1900 8 true None None in
  let attrs :=
    PushInLayerSettings.mkTransitionAttributes
      None (Some "fast"%string) None in
  PushInLayer.opacity
    (PushInLayer.element
       (PushInLayer.setLayerStyle
          (PushInLayerSettings.setLayerParams (ofZ 200) (fun _ _ => 0%Z)
             this attrs)))
  = Some NaN.
Proof.
  intros this attrs.
  destruct (proj1 (setLayerParams_unparsed_transition (ofZ 200)
                     (fun _ _ => 0%Z) this attrs)
              "fast"%string eq_refl eq_refl) as [_ H].
  apply H.
  - repeat split.
  - discriminate.
Defined.

(** X24.  The class [pushin-layer--visible] follows the opacity written:
    after [setLayerStyle], [setLayerVisibility] marks a layer with
    transitions disabled as visible at every scroll position; with
    transitions enabled and a window inpoint <= outpoint it marks a layer
    as not visible before its inpoint unless it is the first, and past its
    outpoint unless it is the last.  A layer whose opacity was never
    written is not visible. *)
Theorem setLayerVisibility_after_style (this : PushInLayer.PushInLayer) :
  let rendered := PushInLayer.setLayerStyle this in
  let pos := PushInLayer.scrollY (PushInLayer.scene this) in
  let p := PushInLayer.params this in
  (PushInLayer.transitions p = false ->
   PushInLayerSettings.setLayerVisibility rendered = true) /\
  (PushInLayer.transitions p = true ->
   le (PushInLayer.inpoint p) (PushInLayer.outpoint p) = true ->
   (PushInLayer.index this <> 0%Z /\ lt pos (PushInLayer.inpoint p) = true) \/
   ((PushInLayer.index this + 1
     <> Z.of_nat (PushInLayer.layers_length (PushInLayer.scene this)))%Z /\
    gt pos (PushInLayer.outpoint p) = true) ->
   PushInLayerSettings.setLayerVisibility rendered = false) /\
  (PushInLayer.opacity (PushInLayer.element this) = None ->
   PushInLayerSettings.setLayerVisibility this = false).
Proof.
  intros rendered pos p. unfold rendered, pos, p.
  unfold PushInLayerSettings.setLayerVisibility.
  rewrite setLayerStyle_opacity. repeat split.
  - intros Htr. unfold PushInLayer.isActive. rewrite Htr.
    destruct (_ && lt _ _); [reflexivity|].
    destruct (_ && gt _ _); reflexivity.
  - intros Htr Hwin [[Hn Hpos]|[Hn Hpos]]; apply Z.eqb_neq in Hn.
    + rewrite Hn, andb_false_l.
      rewrite (lt_le_not_gt _ _ _ Hpos Hwin), andb_false_r.
      unfold PushInLayer.isActive.
      rewrite Htr, (lt_not_ge _ _ Hpos). reflexivity.
    + rewrite Hn, (le_gt_not_lt _ _ _ Hwin Hpos), andb_false_r.
      rewrite andb_false_l.
      unfold PushInLayer.isActive.
      rewrite Htr, (gt_not_le _ _ Hpos), andb_false_r. reflexivity.
  - intros ->. reflexivity.
Qed.

(** The second of three layers: visible when transitions are disabled,
    not visible before its inpoint when they are enabled. *)
Lemma setLayerVisibility_after_style_witness :
  PushInLayerSettings.setLayerVisibility
    (PushInLayer.setLayerStyle
       (Sample.layer 1 3 300 900 1900 8 false None None)) = true /\
  PushInLayerSettings.setLayerVisibility
    (PushInLayer.setLayerStyle
       (Sample.layer 1 3 300 900 1900 8 true None None)) = false.
Proof.
  split.
  - apply (proj1 (setLayerVisibility_after_style
                    (Sample.layer 1 3 300 900 1900 8 false None None))).
    reflexivity.
  - apply (proj1 (proj2 (setLayerVisibility_after_style
                    (Sample.layer 1 3 300 900 1900 8 true None None))));
      try reflexivity.
    left. split; [discriminate | reflexivity].
Defined.

(* ===================================================================== *)
(** * The default outpoint *)
(* ===================================================================== *)

(** X25.  A layer without [data-pushin-to] leaves [layerDepth] after the
    first inpoint of its list, at every breakpoint: the round of
    [getLayers] that builds it stores the single outpoint
    [inpoints[0] + layerDepth] and resolves the layer's outpoint to it,
    whichever of the listed inpoints the viewport width selects as the
    layer's inpoint. *)
Theorem getLayer_default_outpoint
  (scene : PushInStart.SceneElement) (total : Z)
  (e : PushInStart.LayerElement) (this : PushIn.PushIn) :
  PushInStart.pushinTo e = None ->
  let i := Z.of_nat (List.length (PushIn.layers this)) in
  exists l first rest,
    runState (PushInStart.getLayer scene total e i) this
    = (Some (total - i)%Z,
       PushIn.set_layers (PushIn.layers this ++ [l]) this) /\
    PushIn.inpoints (PushIn.ref l) = first :: rest /\
    PushIn.outpoints (PushIn.ref l) = [add first (PushIn.layerDepth this)] /\
    PushIn.outpoint (PushIn.params l)
    = Some (add first (PushIn.layerDepth this)).
Proof.
  intros Hto i.
  destruct (getInpoints_defined scene e this) as [inps Hin].
  pose proof (getInpoints_not_empty scene e _ this inps Hin) as Hne.
  destruct inps as [|first rest]; [now destruct Hne|].
  eexists. exists first, rest.
  split; [apply (getLayer_run scene total e _ this _ Hin)|].
  cbv zeta. simpl PushIn.inpoints. simpl PushIn.outpoints.
  simpl PushIn.outpoint.
  assert (Houts : PushInStart.getOutpoints this e (item (first :: rest) 0)
                  = [add first (PushIn.layerDepth this)]).
  { unfold PushInStart.getOutpoints. now rewrite Hto. }
  rewrite Houts. repeat split.
  change (evalState (PushIn.getInpoint (first :: rest) ;;
                     PushIn.getOutpoint [add first (PushIn.layerDepth this)])
            this)
    with (or (item [add first (PushIn.layerDepth this)]
                (evalState (PushIn.getBreakpointIndex ;;
                            PushIn.getBreakpointIndex) this))
             (item [add first (PushIn.layerDepth this)] 0)).
  apply or_singleton.
Qed.

(** Inpoints "100,500" in a viewport 1000 pixels wide: the layer enters
    at 500 and leaves at 1100. *)
Lemma getLayer_default_outpoint_witness :
  let e :=
    PushInStart.mkLayerElement (PushIn.mkElement None None None)
      (Some "100,500"%string) None (ofZ 1) in
  let scene := PushInStart.mkSceneElement (ofZ 0) None None in
  exists l first rest,
    runState (PushInStart.getLayer scene 1 e 0) (Sample.js_pushin [] 0 1000)
    = (Some (1 - 0)%Z,
       PushIn.set_layers [l] (Sample.js_pushin [] 0 1000)) /\
    PushIn.inpoints (PushIn.ref l) = first :: rest /\
    PushIn.outpoint (PushIn.params l) = Some (add first (ofZ 1000)).
Proof.
  intros e scene.
  destruct (getLayer_default_outpoint scene 1 e (Sample.js_pushin [] 0 1000)
              eq_refl) as [l [first [rest [Hrun [Hin [_ Hout]]]]]].
  exists l, first, rest. split; [exact Hrun|]. split; [exact Hin | exact Hout].
Defined.

Example getLayer_default_outpoint_scenario :
  let e :=
    PushInStart.mkLayerElement (PushIn.mkElement None None None)
      (Some "100,500"%string) None (ofZ 1) in
  let scene := PushInStart.mkSceneElement (ofZ 0) None None in
  map (fun l => (PushIn.inpoint (PushIn.params l),
                 PushIn.outpoint (PushIn.params l)))
    (PushIn.layers
       (execState (PushInStart.getLayers scene [e])
          (Sample.js_pushin [] 0 1000)))
  = [(Some (ofZ 500), Some (Num (100 + 1000)))].
Proof. reflexivity. Qed.
